(** * Isotherm Shifter: the re-referencing script, embedded and checked

    The repository is one Streamlit script, [main.py].  It reads a table,
    lets the user pick an RH column and a loading column, cleans the two
    columns, interpolates a baseline loading at the chosen starting RH and
    adds one computed column, which it plots and offers for download.

    The embedding follows the script: [Main.main] is the script top to
    bottom, in a small monad that records the [st] calls made and stops at
    [st.stop()] or at an exception; [Pandas] holds the table operations the
    script chains, [Numpy] the routine behind [np.interp].  The computation
    of step 5 is also given on a series of points ([compute_baseline],
    [compute_adjusted_series], the names the specification uses), and
    [export_contents] shows that a run writes what those functions compute.

    Numbers.  The script computes with Python floats, binary64.  The
    specification's data model speaks of real numbers, and the development
    reads the numeric part twice.  In [Numpy], [compute_baseline] and
    [adjusted_uptake] numbers are exact rationals ([Q], compared with
    [==]), a division by zero being made explicit with [option]: this
    reading carries the statements whose conclusions are comparisons and
    copies of data, or hold up to a stated tolerance, which rounding leaves
    as they are.  In [Binary64] every operation of lines 68 to 72 is
    rounded as IEEE 754 prescribes, with infinities and nan: this reading
    carries the statements that rounding decides (the equality of the two
    forms of the adjusted uptake, the sign of the baseline, monotonicity). *)

From Stdlib Require Import String Ascii.
From Stdlib Require Import QArith Qabs Qminmax Qround Qpower ZArith List Bool Lia Lqa.
From Stdlib Require Import DecimalString.
From Stdlib Require Import Permutation.
Import ListNotations.

Local Open Scope Q_scope.

(** ** Arithmetic of the script *)

Module Num.

(** [x < y] and [x > y] on numbers, as booleans. *)
Definition ltb (x y : Q) : bool := negb (Qle_bool y x).
Definition gtb (x y : Q) : bool := ltb y x.
Definition geb (x y : Q) : bool := Qle_bool y x.
Definition eqb (x y : Q) : bool := Qeq_bool x y.

(** [a / b] as numpy evaluates it on finite operands: a finite quotient
    when [b] is not zero; with [b = 0] the result is an infinity or a
    nan, no number, written [None]. *)
Definition truediv (a b : Q) : option Q :=
  if eqb b 0 then None else Some (a / b).

End Num.

(** ** numpy.interp *)

Module Numpy.

(** [np.interp] is numpy's library routine; the script calls it with the
    two cleaned columns.  It is piecewise-linear interpolation over sample
    points in ascending order, clamped to the first and last sample value
    outside their range (the specification describes the call under the
    name [compute_baseline]).  The definitions follow numpy's routine
    [arr_interp] and its search [binary_search_with_guess], statement by
    statement. *)

Definition LIKELY_IN_CACHE_SIZE : Z := 8.

(** [arr[i]]. *)
Definition item (arr : list Q) (i : Z) : Q := nth (Z.to_nat i) arr 0.

(** The loop [for (i = i0; i < len && key >= arr[i]; i++);] run on
    [arr[i0..]]; it returns the final [i]. *)
Fixpoint scan (key : Q) (rest : list Q) (i : Z) : Z :=
  match rest with
  | [] => i
  | a :: rest' => if Num.geb key a then scan key rest' (i + 1)%Z else i
  end.

Definition linear_search (key : Q) (arr : list Q) (i0 : Z) : Z :=
  (scan key (skipn (Z.to_nat i0) arr) i0 - 1)%Z.

(** The loop [while (imin < imax)] of the bisection; it returns the final
    [imin].  Each turn shrinks [imax - imin], so [fuel] turns are enough
    when [imax - imin <= fuel]. *)
Fixpoint bisect (fuel : nat) (key : Q) (arr : list Q) (imin imax : Z) : Z :=
  match fuel with
  | O => imin
  | S fuel' =>
      if (imin <? imax)%Z then
        let imid := (imin + Z.shiftr (imax - imin) 1)%Z in
        if Num.geb key (item arr imid)
        then bisect fuel' key arr (imid + 1)%Z imax
        else bisect fuel' key arr imin imid
      else imin
  end.

(** The index [j] with [arr[j] <= key < arr[j+1]]; [len] when [key] is
    above the last element and [-1] when it is below the first. *)
Definition binary_search_with_guess (key : Q) (arr : list Q) (guess : Z) : Z :=
  let len := Z.of_nat (length arr) in
  if Num.gtb key (item arr (len - 1)) then len
  else if Num.ltb key (item arr 0) then (-1)%Z
  else if (len <=? 4)%Z then linear_search key arr 1
  else
    let guess := if (guess >? len - 3)%Z then (len - 3)%Z else guess in
    let guess := if (guess <? 1)%Z then 1%Z else guess in
    if Num.ltb key (item arr guess) then
      if Num.ltb key (item arr (guess - 1)) then
        let imax := (guess - 1)%Z in
        let imin :=
          if (guess >? LIKELY_IN_CACHE_SIZE)%Z
             && Num.geb key (item arr (guess - LIKELY_IN_CACHE_SIZE))
          then (guess - LIKELY_IN_CACHE_SIZE)%Z
          else 0%Z in
        (bisect (length arr) key arr imin imax - 1)%Z
      else (guess - 1)%Z
    else if Num.ltb key (item arr (guess + 1)) then guess
    else if Num.ltb key (item arr (guess + 2)) then (guess + 1)%Z
    else
      let imin := (guess + 2)%Z in
      let imax :=
        if (guess <? len - LIKELY_IN_CACHE_SIZE - 1)%Z
           && Num.ltb key (item arr (guess + LIKELY_IN_CACHE_SIZE))
        then (guess + LIKELY_IN_CACHE_SIZE)%Z
        else len in
      (bisect (length arr) key arr imin imax - 1)%Z.

Inductive ValueError : Type :=
| empty_sample_points
| length_mismatch.

(** [np.interp(x, xp, fp)] for a scalar [x] and the default [left],
    [right] and [period]: the first sample value below the range, the last
    one above it, the sample value at a sample point, the point of the
    segment in between.  An empty [xp], or an [fp] of another length,
    raises.  (The routine also has fall-backs for a nan result, which
    finite numbers never reach.) *)
Definition interp (x : Q) (xp fp : list Q) : ValueError + Q :=
  let lenxp := length xp in
  if (lenxp =? 0)%nat then inl empty_sample_points
  else if negb (length fp =? lenxp)%nat then inl length_mismatch
  else
    let lval := nth 0 fp 0 in
    let rval := nth (lenxp - 1) fp 0 in
    if (lenxp =? 1)%nat then
      let xp_val := nth 0 xp 0 in
      let fp_val := nth 0 fp 0 in
      inr (if Num.ltb x xp_val then lval
           else if Num.gtb x xp_val then rval
           else fp_val)
    else
      let j := binary_search_with_guess x xp 0 in
      if (j =? -1)%Z then inr lval
      else if (j =? Z.of_nat lenxp)%Z then inr rval
      else if (j =? Z.of_nat lenxp - 1)%Z then inr (item fp j)
      else if Num.eqb (item xp j) x then inr (item fp j)
      else
        let slope :=
          (item fp (j + 1) - item fp j) / (item xp (j + 1) - item xp j) in
        inr (slope * (x - item xp j) + item fp j).

End Numpy.

(** ** The re-referencing computation (step 5 of [main.py]) *)

(** A cleaned isotherm: (RH, loading) points in ascending RH order. *)
Definition IsothermSeries : Type := list (Q * Q).

Definition rh_of (series : IsothermSeries) : list Q := map fst series.
Definition loading_of (series : IsothermSeries) : list Q := map snd series.

(** [baseline_q = np.interp(start_rh, iso[rh_col], iso[q_col])]; the
    specification calls it [compute_baseline]. *)
Definition compute_baseline (series : IsothermSeries) (start_rh : Q)
  : Numpy.ValueError + Q :=
  Numpy.interp start_rh (rh_of series) (loading_of series).

(** [initial_total_mass = 1.0 + baseline_q]. *)
Definition initial_total_mass (baseline_q : Q) : Q := 1 + baseline_q.

(** One entry of [(1.0 + iso[q_col] - initial_total_mass) / initial_total_mass]. *)
Definition adjusted_uptake (baseline_q loading : Q) : option Q :=
  Num.truediv (1 + loading - initial_total_mass baseline_q)
              (initial_total_mass baseline_q).

(** The new column, entry by entry. *)
Definition adjusted_column (baseline_q : Q) (loadings : list Q) : list (option Q) :=
  map (adjusted_uptake baseline_q) loadings.

(** Lines 68 to 72 on a cleaned series: every point with its adjusted
    uptake; the specification calls it [compute_adjusted_series]. *)
Definition compute_adjusted_series (series : IsothermSeries) (start_rh : Q)
  : Numpy.ValueError + list (Q * option Q) :=
  match compute_baseline series start_rh with
  | inl e => inl e
  | inr baseline_q =>
      inr (combine (rh_of series) (adjusted_column baseline_q (loading_of series)))
  end.

(** Ascending RH, repeats allowed (what [sort_values] leaves). *)
Fixpoint ascending (xs : list Q) : Prop :=
  match xs with
  | [] => True
  | x :: rest =>
      match rest with
      | [] => True
      | y :: _ => x <= y /\ ascending rest
      end
  end.

(** ** The computation in binary64 (steps 4 and 5 as the script rounds) *)

Module Binary64.

(** Python floats and numpy's [float64] are IEEE 754 binary64 numbers: 53
    significant bits, the last of them worth [2^-1074] or more, and every
    operation returns the exact result rounded to the nearest such number,
    ties to the one with an even last bit.  A finite binary64 number is
    held here as the rational number it is, and [round64] is that
    rounding. *)

(** The place of the leading bit of a positive [x]:
    [2^e <= x < 2^(e+1)]. *)
Definition ilog2 (x : Q) : Z :=
  let e := (Z.log2 (Qnum x) - Z.log2 (Zpos (Qden x)))%Z in
  if Qle_bool (2 ^ e) x then e else (e - 1)%Z.

(** The nearest integer, ties to even. *)
Definition round_half_even (y : Q) : Z :=
  let f := Qfloor y in
  match Qcompare (y - inject_Z f) (1 # 2) with
  | Lt => f
  | Gt => (f + 1)%Z
  | Eq => if Z.even f then f else (f + 1)%Z
  end.

(** The exponent of the last of the 53 bits of a positive [x]; never below
    [-1074] (subnormal numbers). *)
Definition exponent (x : Q) : Z := Z.max (ilog2 x - 52) (-1074).

Definition round_pos (x : Q) : Q :=
  inject_Z (round_half_even (x / 2 ^ exponent x)) * 2 ^ exponent x.

(** Rounding to nearest, ties to even, before the check for overflow. *)
Definition round64 (x : Q) : Q :=
  match Qcompare x 0 with
  | Eq => 0
  | Gt => round_pos x
  | Lt => - round_pos (- x)
  end.

(** The largest finite number, [(2^53 - 1) * 2^971]. *)
Definition max_float : Q := inject_Z (2 ^ 53 - 1) * 2 ^ 971.

(** The unit roundoff [2^-53], and half the smallest positive number,
    [2^-1075]: the error of one rounding of [x] is at most
    [u * |x| + eta]. *)
Definition u : Q := 1 # 9007199254740992.
Definition eta : Q := 2 ^ (-1075).

(** A value of the arithmetic: a finite number, an infinity, or nan.  The
    sign of a zero is not kept: it shows only in a division by zero, and
    the divisors of the script ([1.0 + baseline_q], and in [np.interp] the
    difference of two RH values of which the second is the larger) are
    never [-0.0]. *)
Inductive float : Type :=
| finite (q : Q)
| inf (negative : bool)
| nan.

(** The rounded result of an operation on finite numbers: beyond
    [max_float] it is an infinity. *)
Definition rnd (x : Q) : float :=
  let r := round64 x in
  if Qle_bool (Qabs r) max_float then finite r else inf (Num.ltb x 0).

Definition opp (x : float) : float :=
  match x with
  | finite a => finite (- a)
  | inf s => inf (negb s)
  | nan => nan
  end.

Definition add (x y : float) : float :=
  match x, y with
  | finite a, finite b => rnd (a + b)
  | finite _, inf t => inf t
  | inf s, finite _ => inf s
  | inf s, inf t => if Bool.eqb s t then inf s else nan
  | _, _ => nan
  end.

Definition sub (x y : float) : float := add x (opp y).

Definition mul (x y : float) : float :=
  match x, y with
  | finite a, finite b => rnd (a * b)
  | finite a, inf t => if Num.eqb a 0 then nan else inf (xorb (Num.ltb a 0) t)
  | inf s, finite b => if Num.eqb b 0 then nan else inf (xorb s (Num.ltb b 0))
  | inf s, inf t => inf (xorb s t)
  | _, _ => nan
  end.

(** [x / y] as numpy evaluates it: a division by zero gives an infinity,
    or nan for [0 / 0], and no exception. *)
Definition div (x y : float) : float :=
  match x, y with
  | finite a, finite b =>
      if Num.eqb b 0
      then (if Num.eqb a 0 then nan else inf (Num.ltb a 0))
      else rnd (a / b)
  | finite _, inf _ => finite 0
  | inf s, finite b => inf (xorb s (Num.ltb b 0))
  | _, _ => nan
  end.

Definition isnan (x : float) : bool :=
  match x with
  | nan => true
  | _ => false
  end.

(** A decimal numeral as Python reads it: the nearest binary64 number. *)
Definition dec (q : Q) : Q := round64 q.

(** The last branch of the loop of [arr_interp], for [x] on the segment
    from sample [j] to sample [j + 1]:
    [slope = (fp[j+1] - fp[j]) / (xp[j+1] - xp[j])],
    [slope*(x - xp[j]) + fp[j]], the product and the sum rounded one
    after the other, and the two fall-backs of the routine for a nan
    result. *)
Definition segment (x x0 x1 f0 f1 : Q) : float :=
  let slope := div (sub (finite f1) (finite f0)) (sub (finite x1) (finite x0)) in
  let res := add (mul slope (sub (finite x) (finite x0))) (finite f0) in
  if isnan res then
    let res' := add (mul slope (sub (finite x) (finite x1))) (finite f1) in
    if isnan res' && Num.eqb f0 f1 then finite f0 else res'
  else res.

(** [np.interp(x, xp, fp)] on finite numbers, as [Numpy.interp] but with
    the arithmetic of the last branch rounded.  The comparisons of the
    search are exact on finite numbers, so the search is the same. *)
Definition interp (x : Q) (xp fp : list Q) : Numpy.ValueError + float :=
  let lenxp := length xp in
  if (lenxp =? 0)%nat then inl Numpy.empty_sample_points
  else if negb (length fp =? lenxp)%nat then inl Numpy.length_mismatch
  else
    let lval := nth 0 fp 0 in
    let rval := nth (lenxp - 1) fp 0 in
    if (lenxp =? 1)%nat then
      let xp_val := nth 0 xp 0 in
      let fp_val := nth 0 fp 0 in
      inr (finite (if Num.ltb x xp_val then lval
                   else if Num.gtb x xp_val then rval
                   else fp_val))
    else
      let j := Numpy.binary_search_with_guess x xp 0 in
      if (j =? -1)%Z then inr (finite lval)
      else if (j =? Z.of_nat lenxp)%Z then inr (finite rval)
      else if (j =? Z.of_nat lenxp - 1)%Z then inr (finite (Numpy.item fp j))
      else if Num.eqb (Numpy.item xp j) x then inr (finite (Numpy.item fp j))
      else
        inr (segment x (Numpy.item xp j) (Numpy.item xp (j + 1))
                       (Numpy.item fp j) (Numpy.item fp (j + 1))).

(** Line 68: [baseline_q = np.interp(start_rh, iso[rh_col], iso[q_col])]. *)
Definition compute_baseline (series : IsothermSeries) (start_rh : Q)
  : Numpy.ValueError + float :=
  interp start_rh (rh_of series) (loading_of series).

(** Line 69: [initial_total_mass = 1.0 + baseline_q]. *)
Definition initial_total_mass (baseline_q : float) : float :=
  add (finite 1) baseline_q.

(** Line 72, one entry:
    [(1.0 + iso[q_col] - initial_total_mass) / initial_total_mass],
    evaluated from the left. *)
Definition adjusted_uptake (baseline_q : float) (loading : Q) : float :=
  div (sub (add (finite 1) (finite loading)) (initial_total_mass baseline_q))
      (initial_total_mass baseline_q).

(** The other form the specification gives,
    [(loading - baseline_q) / (1.0 + baseline_q)]. *)
Definition adjusted_uptake_spec (baseline_q : float) (loading : Q) : float :=
  div (sub (finite loading) baseline_q) (add (finite 1) baseline_q).

(** Data of moderate size: every loading in [[0, L]] with [L] at most
    [2^49], and neighbouring points with different RH at least [2^-50] and
    at most [2^50] apart. *)
Definition moderate (L : Q) (series : IsothermSeries) : Prop :=
  (forall p, In p series -> 0 <= snd p /\ snd p <= L) /\
  L <= 2 ^ 49 /\
  forall j, (S j < length series)%nat ->
            nth j (rh_of series) 0 < nth (S j) (rh_of series) 0 ->
            2 ^ (-50) <= nth (S j) (rh_of series) 0 - nth j (rh_of series) 0 /\
            nth (S j) (rh_of series) 0 - nth j (rh_of series) 0 <= 2 ^ 50.

End Binary64.

(** ** pandas: the table and its cleaning (step 3 of [main.py]) *)

Module Pandas.

(** A cell of the uploaded table as [pd.read_csv] leaves it, told apart
    by what [pd.to_numeric(errors="coerce")] makes of it. *)
Inductive cell : Type :=
| Number (q : Q)      (* a number, or text that converts to one *)
| Text (s : string)   (* text that does not convert *)
| Missing.            (* an empty cell, nan *)

(** A table, row by row; each row has one entry per column label. *)
Record DataFrame (A : Type) : Type :=
  { columns : list string;
    rows : list (list A) }.
Arguments columns {A}.
Arguments rows {A}.

Inductive exception : Type :=
| KeyError (label : string)
| LabelNotUnique (label : string)    (* ValueError of [sort_values] *)
| InterpError (e : Numpy.ValueError)
| WidgetException.

(** Every row is as wide as the header and no label repeats, as
    [pd.read_csv] builds its tables. *)
Definition rectangular {A} (df : DataFrame A) : Prop :=
  NoDup (columns df) /\
  Forall (fun row => length row = length (columns df)) (rows df).

(** [df.empty]: no column or no row. *)
Definition empty {A} (df : DataFrame A) : bool :=
  (length (columns df) =? 0)%nat || (length (rows df) =? 0)%nat.

(** The positions of the columns labelled [label], counted from [i]. *)
Fixpoint positions_from (label : string) (cols : list string) (i : nat) : list nat :=
  match cols with
  | [] => []
  | c :: cols' =>
      if String.eqb c label
      then i :: positions_from label cols' (S i)
      else positions_from label cols' (S i)
  end.

Definition positions {A} (df : DataFrame A) (label : string) : list nat :=
  positions_from label (columns df) 0.

(** The entries of [row] at the positions [ps], in that order. *)
Definition take {A} (ps : list nat) (row : list A) : list A :=
  flat_map (fun i => match nth_error row i with
                     | Some c => [c]
                     | None => []
                     end) ps.

(** [df[[label1, label2, ...]]]. *)
Definition getitem_list {A} (df : DataFrame A) (labels : list string)
  : exception + DataFrame A :=
  match find (fun l => (length (positions df l) =? 0)%nat) labels with
  | Some l => inl (KeyError l)
  | None =>
      let ps := flat_map (positions df) labels in
      inr {| columns := take ps (columns df);
             rows := map (take ps) (rows df) |}
  end.

Definition isna (c : cell) : bool :=
  match c with
  | Missing => true
  | _ => false
  end.

(** [df.dropna()] on the table as read: rows with an empty cell go. *)
Definition dropna (df : DataFrame cell) : DataFrame cell :=
  {| columns := columns df;
     rows := filter (fun row => forallb (fun c => negb (isna c)) row) (rows df) |}.

(** [pd.to_numeric(_, errors="coerce")] on one cell; [None] is nan. *)
Definition to_numeric (c : cell) : option Q :=
  match c with
  | Number q => Some q
  | Text _ => None
  | Missing => None
  end.

(** [df.apply(pd.to_numeric, errors="coerce")]. *)
Definition apply_to_numeric (df : DataFrame cell) : DataFrame (option Q) :=
  {| columns := columns df;
     rows := map (map to_numeric) (rows df) |}.

(** A row without nan, as a row of numbers. *)
Fixpoint numbers (row : list (option Q)) : option (list Q) :=
  match row with
  | [] => Some []
  | None :: _ => None
  | Some q :: row' =>
      match numbers row' with
      | Some qs => Some (q :: qs)
      | None => None
      end
  end.

(** [df.dropna()] on the converted table: what stays holds numbers only. *)
Definition dropna_numeric (df : DataFrame (option Q)) : DataFrame Q :=
  {| columns := columns df;
     rows := flat_map (fun row => match numbers row with
                                  | Some qs => [qs]
                                  | None => []
                                  end) (rows df) |}.

(** Insertion of a row before the first row whose key is not smaller. *)
Fixpoint insert_row (i : nat) (row : list Q) (sorted : list (list Q)) : list (list Q) :=
  match sorted with
  | [] => [row]
  | r :: sorted' =>
      if Qle_bool (nth i row 0) (nth i r 0)
      then row :: r :: sorted'
      else r :: insert_row i row sorted'
  end.

(** [df.sort_values(by)], ascending.  Rows with equal keys keep their
    order here; pandas does not promise that. *)
Definition sort_values (df : DataFrame Q) (by_ : string) : exception + DataFrame Q :=
  match positions df by_ with
  | [] => inl (KeyError by_)
  | [i] => inr {| columns := columns df;
                  rows := fold_right (insert_row i) [] (rows df) |}
  | _ :: _ :: _ => inl (LabelNotUnique by_)
  end.

(** [df.reset_index(drop=True)]: rows are numbered by their place. *)
Definition reset_index {A} (df : DataFrame A) : DataFrame A := df.

(** [df[label]], one column. *)
Definition getitem (df : DataFrame Q) (label : string) : exception + list Q :=
  match positions df label with
  | [] => inl (KeyError label)
  | [i] => inr (map (fun row => nth i row 0) (rows df))
  | _ :: _ :: _ => inl (LabelNotUnique label)
  end.

(** [series.min()] and [series.max()] of a non-empty column. *)
Definition series_min (xs : list Q) : Q :=
  match xs with
  | [] => 0
  | x :: rest => fold_left Qmin rest x
  end.

Definition series_max (xs : list Q) : Q :=
  match xs with
  | [] => 0
  | x :: rest => fold_left Qmax rest x
  end.

(** The cleaned table seen as a table of floats. *)
Definition as_float (df : DataFrame Q) : DataFrame (option Q) :=
  {| columns := columns df;
     rows := map (map Some) (rows df) |}.

(** One row of [df[label] = values]: the new entry replaces the entries
    at [ps], or is appended when there is no such column. *)
Fixpoint replace_at {A} (ps : list nat) (v : A) (row : list A) (i : nat) : list A :=
  match row with
  | [] => []
  | c :: row' =>
      (if existsb (Nat.eqb i) ps then v else c) :: replace_at ps v row' (S i)
  end.

(** [df[label] = values]. *)
Definition setitem {A} (df : DataFrame A) (label : string) (values : list A)
  : DataFrame A :=
  match positions df label with
  | [] =>
      {| columns := columns df ++ [label];
         rows := map (fun rv => fst rv ++ [snd rv]) (combine (rows df) values) |}
  | ps =>
      {| columns := columns df;
         rows := map (fun rv => replace_at ps (snd rv) (fst rv) 0)
                     (combine (rows df) values) |}
  end.

(** A field of the written file. *)
Inductive field : Type :=
| Label (s : string)
| Index (i : nat)
| Entry (v : option Q).

(** [df.to_csv(index=...)] up to the rendering of fields as text: the
    header record, then one record per row. *)
Definition to_csv (index : bool) (df : DataFrame (option Q)) : list (list field) :=
  ((if index then [Label EmptyString] else []) ++ map Label (columns df))
  :: map (fun ir => (if index then [Index (fst ir)] else []) ++ map Entry (snd ir))
         (combine (seq 0 (length (rows df))) (rows df)).

(** The cleaning of the two selected columns. *)
Definition clean (df_raw : DataFrame cell) (rh_col q_col : string)
  : exception + DataFrame Q :=
  match getitem_list df_raw [rh_col; q_col] with
  | inl e => inl e
  | inr selected =>
      match sort_values (dropna_numeric (apply_to_numeric (dropna selected))) rh_col with
      | inl e => inl e
      | inr sorted => inr (reset_index sorted)
      end
  end.

End Pandas.

(** ** The text of the written file (step 7) *)

Module Csv.
Import Pandas.

(** [to_csv] writes its records with Python's [csv] writer: fields
    separated by commas, one record per line, each line ended by a line
    feed (the line terminator of [to_csv] is [os.linesep], taken here as
    on Linux and macOS), and a field that holds a comma, a double quote or
    a line break is put in double quotes with its double quotes doubled
    ([csv.QUOTE_MINIMAL]). *)













End Csv.

(** ** Streamlit: one run of the script *)

Module Streamlit.
Import Pandas.
Local Open Scope string_scope.

(** [px.line(iso, x=..., y=..., title=..., labels=...)] followed by
    [fig.update_layout(margin=...)].  The title is
    ["Adjusted Isotherm (start = {start_rh:.0f}% RH)"]; the figure keeps
    the number it prints. *)
Record Figure : Type :=
  { data_frame : DataFrame (option Q);
    x : string;
    y : string;
    title_start_rh : Q;
    labels : list (string * string);
    margin : list (string * Z) }.

(** The calls of [st] the script makes, with their arguments, in the
    order it makes them: the page. *)
Inductive element : Type :=
| set_page_config (page_title page_icon : string)
| title (body : string)
| write (body : string)
| file_uploader (label : string) (type : list string)
| info (body : string)
| subheader (body : string)
| dataframe (df : DataFrame cell)
| error (body : string)
| selectbox (label : string) (options : list string) (index : nat)
| slider (label : string) (min_value max_value value step : Q)
| plotly_chart (fig : Figure) (use_container_width : bool)
| download_button (label : string) (data : list (list field)) (file_name mime : string).

(** What the user has done when the script runs: the uploaded file as
    [pd.read_csv] reads it ([None]: nothing uploaded yet; a file that
    [pd.read_csv] cannot read, or a table that [st.dataframe] cannot show,
    makes the script raise there and is left out)
    and the state of the widgets.  A widget answers with its current value,
    given the arguments of its call, or raises ([None]). *)
Record Session : Type :=
  { uploaded_file : option (DataFrame cell);
    selectbox_value : string -> list string -> nat -> option string;
    slider_value : string -> Q -> Q -> Q -> Q -> option Q }.

(** How a run ends before its last line. *)
Inductive halt : Type :=
| Stopped                      (* [st.stop()] *)
| Raised (e : exception).      (* an uncaught exception *)

(** A piece of the script: it adds to the page and either goes on with a
    value or halts. *)
Definition script (A : Type) : Type :=
  list element -> (halt + A) * list element.

Definition ret {A} (a : A) : script A :=
  fun page => (inr a, page).

Definition bind {A B} (m : script A) (k : A -> script B) : script B :=
  fun page =>
    match m page with
    | (inl h, page') => (inl h, page')
    | (inr a, page') => k a page'
    end.

Definition show (e : element) : script unit :=
  fun page => (inr tt, (page ++ [e])%list).

Definition stop {A} : script A :=
  fun page => (inl Stopped, page).

Definition raise {A} (e : exception) : script A :=
  fun page => (inl (Raised e), page).

Definition lift {A} (r : exception + A) : script A :=
  match r with
  | inl e => raise e
  | inr a => ret a
  end.

Definition widget {A} (e : element) (answer : option A) : script A :=
  bind (show e) (fun _ =>
    match answer with
    | Some a => ret a
    | None => raise WidgetException
    end).

End Streamlit.

Notation "x <- m ;; k" := (Streamlit.bind m (fun x => k))
  (at level 61, m at next level, right associativity).
Notation "m ;; k" := (Streamlit.bind m (fun _ => k))
  (at level 61, right associativity).

(** ** [main.py] *)

Module Main.
Import Pandas Streamlit.
Local Open Scope string_scope.

Definition purpose : string :=
  "
    **Purpose**  
    Upload an equilibrium isotherm (RH vs water loading in g water per g salt) and interactively re‑reference it
    to a chosen starting humidity. The adjusted curve shows incremental water uptake per gram of the *initial total
    mass* (salt + dead water) so that the value is zero at the selected starting point.
    ".

Definition adjusted_label : string := "Adjusted uptake (g/g initial mass)".

(** Steps 5 to 7: the computation, the chart and the download. *)
Definition compute_and_show (iso : DataFrame Q) (rh_col q_col : string) (start_rh : Q)
  : script unit :=
  rh_values <- lift (getitem iso rh_col) ;;
  q_values <- lift (getitem iso q_col) ;;
  baseline_q <- lift (match Numpy.interp start_rh rh_values q_values with
                      | inl e => inl (InterpError e)
                      | inr b => inr b
                      end) ;;
  let iso' := setitem (as_float iso) adjusted_label
                      (adjusted_column baseline_q q_values) in
  let fig := {| data_frame := iso';
                x := rh_col;
                y := adjusted_label;
                title_start_rh := start_rh;
                labels := [(rh_col, "Relative Humidity (%)");
                           (adjusted_label, "Uptake (g / g initial total mass)")];
                margin := [("l", 40%Z); ("r", 40%Z); ("t", 60%Z); ("b", 40%Z)] |} in
  show (plotly_chart fig true) ;;
  show (download_button "Download adjusted isotherm as CSV"
                        (to_csv false iso')
                        "adjusted_isotherm.csv" "text/csv").

(** The script, top to bottom. *)
Definition main (s : Session) : script unit :=
  show (set_page_config "Isotherm Shifter" "💧") ;;
  show (title "Isotherm Shifter") ;;
  show (write purpose) ;;
  show (file_uploader "CSV file" ["csv"]) ;;
  match uploaded_file s with
  | None =>
      show (info "Upload a CSV to get started. Expected columns: Relative Humidity (%) and water loading (g/g).") ;;
      stop
  | Some df_raw =>
      show (subheader "Raw Data") ;;
      show (dataframe df_raw) ;;
      (if empty df_raw || (length (columns df_raw) <? 2)%nat
       then show (error "CSV must contain at least two numeric columns (RH and loading).") ;;
            stop
       else ret tt) ;;
      rh_col <- widget (selectbox "Column containing RH (%)" (columns df_raw) 0)
                       (selectbox_value s "Column containing RH (%)" (columns df_raw) 0%nat) ;;
      q_col <- widget (selectbox "Column containing loading (g water / g salt)"
                                 (columns df_raw) 1)
                      (selectbox_value s "Column containing loading (g water / g salt)"
                                       (columns df_raw) 1%nat) ;;
      iso <- lift (clean df_raw rh_col q_col) ;;
      (if empty iso
       then show (error "Selected columns could not be converted to numeric values.") ;;
            stop
       else ret tt) ;;
      rh_values <- lift (getitem iso rh_col) ;;
      let rh_min := series_min rh_values in
      let rh_max := series_max rh_values in
      start_rh <- widget (slider "Starting RH (%)" rh_min rh_max rh_min 1)
                         (slider_value s "Starting RH (%)" rh_min rh_max rh_min 1) ;;
      compute_and_show iso rh_col q_col start_rh
  end.

(** One run: how it ended and what the page shows. *)
Definition run (s : Session) : (halt + unit) * list element := main s [].

End Main.

(** ** Reading results *)

(** [r] is the number [v] (up to the equality of rationals), no error. *)
Definition returns (r : Numpy.ValueError + Q) (v : Q) : Prop :=
  match r with
  | inr b => b == v
  | inl _ => False
  end.

(** What the search returns on a non-empty array. *)
Inductive search_result (key : Q) (arr : list Q) : Z -> Prop :=
| above_last :
    nth (length arr - 1) arr 0 < key ->
    search_result key arr (Z.of_nat (length arr))
| below_first :
    key < nth 0 arr 0 ->
    search_result key arr (-1)
| inside (j : nat) :
    (j < length arr)%nat ->
    nth j arr 0 <= key ->
    key <= nth (length arr - 1) arr 0 ->
    ((S j < length arr)%nat -> key < nth (S j) arr 0) ->
    search_result key arr (Z.of_nat j).

(** The slope of the segment from sample [j] to sample [j + 1]. *)
Definition slope_at (xp fp : list Q) (j : nat) : Q :=
  (nth (j + 1) fp 0 - nth j fp 0) / (nth (j + 1) xp 0 - nth j xp 0).

(** The four cases of [np.interp]: clamped below, clamped above, at a
    sample point, on a segment. *)
Inductive interp_result (x : Q) (xp fp : list Q) : Q -> Prop :=
| clamp_left :
    x < nth 0 xp 0 ->
    interp_result x xp fp (nth 0 fp 0)
| clamp_right :
    nth (length xp - 1) xp 0 < x ->
    interp_result x xp fp (nth (length xp - 1) fp 0)
| at_sample (j : nat) :
    (j < length xp)%nat ->
    nth j xp 0 == x ->
    ((S j < length xp)%nat -> x < nth (S j) xp 0) ->
    interp_result x xp fp (nth j fp 0)
| on_segment (j : nat) :
    (S j < length xp)%nat ->
    nth j xp 0 < x ->
    x < nth (S j) xp 0 ->
    interp_result x xp fp (slope_at xp fp j * (x - nth j xp 0) + nth j fp 0).

(** An element that only a run reaching step 4 puts on the page: the
    slider, the chart, the download. *)
Definition past_the_checks (e : Streamlit.element) : bool :=
  match e with
  | Streamlit.slider _ _ _ _ _ => true
  | Streamlit.plotly_chart _ _ => true
  | Streamlit.download_button _ _ _ _ => true
  | _ => false
  end.

(** The rows of the cleaned table, for the columns at positions [i], [j]. *)
Definition cleaned_rows (i j : nat) (raw : list (list Pandas.cell)) : list (list Q) :=
  fold_right (Pandas.insert_row 0) []
    (flat_map (fun row => match Pandas.numbers row with
                          | Some qs => [qs]
                          | None => []
                          end)
       (map (map Pandas.to_numeric)
          (filter (fun row => forallb (fun c => negb (Pandas.isna c)) row)
             (map (Pandas.take [i; j]) raw)))).

(** A page of [n] elements, still to be read off the run. *)
Ltac exists_page n :=
  lazymatch n with
  | O => exists (@nil Streamlit.element); eexists
  | S ?m =>
      let rec build k :=
        lazymatch k with
        | O => uconstr:(@nil Streamlit.element)
        | S ?k' => let t := build k' in uconstr:(cons _ t)
        end in
      let t := build n in
      refine (ex_intro _ t _); eexists
  end.

(** The cleaned table as a series of points: first column RH, second
    column loading. *)
Definition series_of (iso : Pandas.DataFrame Q) : IsothermSeries :=
  map (fun row => (nth 0 row 0, nth 1 row 0)) (Pandas.rows iso).


(** Widgets nobody has touched: a select box answers with the option at
    its [index], the slider with its [value]. *)
Definition untouched (upload : option (Pandas.DataFrame Pandas.cell)) : Streamlit.Session :=
  {| Streamlit.uploaded_file := upload;
     Streamlit.selectbox_value := fun _ options index => nth_error options index;
     Streamlit.slider_value := fun _ _ _ value _ => Some value |}.

(** A table with a third column and a row that does not convert. *)
Definition three_columns : Pandas.DataFrame Pandas.cell :=
  {| Pandas.columns := ["RH"%string; "q"%string; "note"%string];
     Pandas.rows :=
       [[Pandas.Number 100; Pandas.Number 0.80; Pandas.Text "last"];
        [Pandas.Number 0; Pandas.Number 0.05; Pandas.Text "first"];
        [Pandas.Number 40; Pandas.Text "wet"; Pandas.Missing];
        [Pandas.Number 40; Pandas.Number 0.18; Pandas.Missing]] |}.

(** A table whose loading column holds no number. *)
Definition no_numbers : Pandas.DataFrame Pandas.cell :=
  {| Pandas.columns := ["RH"%string; "q"%string];
     Pandas.rows :=
       [[Pandas.Number 10; Pandas.Text "wet"];
        [Pandas.Number 20; Pandas.Missing]] |}.

(** The rows of the upload that the cleaning keeps, in the order of the
    upload: those whose cells in the columns at positions [i] and [j] are
    both numbers, cut down to these two numbers. *)
Definition kept_rows (i j : nat) (raw : list (list Pandas.cell)) : list (list Q) :=
  flat_map (fun row => match nth_error row i, nth_error row j with
                       | Some (Pandas.Number a), Some (Pandas.Number b) => [[a; b]]
                       | _, _ => []
                       end) raw.

(** An [st.error] box. *)
Definition is_error (e : Streamlit.element) : bool :=
  match e with
  | Streamlit.error _ => true
  | _ => false
  end.

(** The page of a run up to the raw table (steps 1 and 2), and up to the
    two select boxes (step 3). *)
Definition page_to_raw_table (df_raw : Pandas.DataFrame Pandas.cell)
  : list Streamlit.element :=
  [Streamlit.set_page_config "Isotherm Shifter" "💧";
   Streamlit.title "Isotherm Shifter";
   Streamlit.write Main.purpose;
   Streamlit.file_uploader "CSV file" ["csv"%string];
   Streamlit.subheader "Raw Data";
   Streamlit.dataframe df_raw].

Definition page_to_selectboxes (df_raw : Pandas.DataFrame Pandas.cell)
  : list Streamlit.element :=
  page_to_raw_table df_raw ++
  [Streamlit.selectbox "Column containing RH (%)" (Pandas.columns df_raw) 0;
   Streamlit.selectbox "Column containing loading (g water / g salt)"
                       (Pandas.columns df_raw) 1].

(** The first check of the script: [df_raw.empty or len(df_raw.columns) < 2]. *)
Definition first_check (df_raw : Pandas.DataFrame Pandas.cell) : bool :=
  Pandas.empty df_raw || (length (Pandas.columns df_raw) <? 2)%nat.

(** A session that picks the first column in both select boxes. *)
Definition first_column_twice (upload : Pandas.DataFrame Pandas.cell) : Streamlit.Session :=
  {| Streamlit.uploaded_file := Some upload;
     Streamlit.selectbox_value := fun _ options _ => nth_error options 0;
     Streamlit.slider_value := fun _ _ _ value _ => Some value |}.

(** A header of two columns and no row. *)
Definition header_only : Pandas.DataFrame Pandas.cell :=
  {| Pandas.columns := ["RH"%string; "q"%string]; Pandas.rows := [] |}.

(** A session in which the user has picked the options at positions [i]
    and [j] in the two select boxes (the script gives the first box the
    index 0 and the second the index 1) and has not moved the slider. *)
Definition choosing (upload : Pandas.DataFrame Pandas.cell) (i j : nat) : Streamlit.Session :=
  {| Streamlit.uploaded_file := Some upload;
     Streamlit.selectbox_value :=
       fun _ options index => nth_error options (if (index =? 0)%nat then i else j);
     Streamlit.slider_value := fun _ _ _ value _ => Some value |}.

(** A file the script wrote before, uploaded again. *)
Definition written_before : Pandas.DataFrame Pandas.cell :=
  {| Pandas.columns := ["RH"%string; "q"%string; Main.adjusted_label];
     Pandas.rows :=
       [[Pandas.Number 0; Pandas.Number 0.05; Pandas.Number 0];
        [Pandas.Number 40; Pandas.Number 0.18; Pandas.Number (13 # 105)];
        [Pandas.Number 100; Pandas.Number 0.80; Pandas.Number (75 # 105)]] |}.

(** One record of the written file when the loading column is the column
    that is assigned: RH and adjusted uptake. *)
Definition short_record_of (baseline_q : Q) (p : Q * Q) : list Pandas.field :=
  [Pandas.Entry (Some (fst p)); Pandas.Entry (adjusted_uptake baseline_q (snd p))].

(** RH values in ascending order with no value repeated. *)
Fixpoint strictly_ascending (xs : list Q) : Prop :=
  match xs with
  | [] => True
  | x :: rest =>
      match rest with
      | [] => True
      | y :: _ => x < y /\ strictly_ascending rest
      end
  end.

(** An upload already in ascending RH order, with a row that does not
    convert. *)
Definition sorted_upload : Pandas.DataFrame Pandas.cell :=
  {| Pandas.columns := ["RH"%string; "q"%string; "note"%string];
     Pandas.rows :=
       [[Pandas.Number 0; Pandas.Number 0.05; Pandas.Text "first"];
        [Pandas.Number 40; Pandas.Text "wet"; Pandas.Missing];
        [Pandas.Number 40; Pandas.Number 0.18; Pandas.Missing];
        [Pandas.Number 100; Pandas.Number 0.80; Pandas.Text "last"]] |}.

(** The six-point example of the specification as binary64 data. *)
Definition example_series_6_binary64 : IsothermSeries :=
  [(0, Binary64.dec 0.05); (20, Binary64.dec 0.10); (40, Binary64.dec 0.18);
   (60, Binary64.dec 0.30); (80, Binary64.dec 0.50); (100, Binary64.dec 0.80)].

(** Two points with a loading that falls to zero, and a starting RH just
    below the second. *)
Definition falling_pair : IsothermSeries :=
  [(Binary64.dec 5.8, Binary64.dec 1.97); (Binary64.dec 15.8, 0)].

(** The same with a very large first loading. *)
Definition heavy_pair : IsothermSeries :=
  [(Binary64.dec 13.8, 8552941522103690); (Binary64.dec 55.4, 0)].

(** Two points whose RH values are the smallest positive binary64 number
    and three times that number. *)
Definition close_pair : IsothermSeries :=
  [(2 ^ (-1074), 5); (3 * 2 ^ (-1074), 1)].

(** * Properties *)

(** ** Comparisons *)

Lemma ltb_lt (x y : Q) : Num.ltb x y = true <-> x < y.
Proof.
  unfold Num.ltb. rewrite negb_true_iff.
  split; intro H.
  - apply Qnot_le_lt. intro Hle. apply Qle_bool_iff in Hle. congruence.
  - destruct (Qle_bool y x) eqn:E; [|reflexivity].
    apply Qle_bool_iff in E. exfalso. exact (Qlt_not_le _ _ H E).
Qed.

Lemma ltb_ge (x y : Q) : Num.ltb x y = false <-> y <= x.
Proof.
  unfold Num.ltb. rewrite negb_false_iff. apply Qle_bool_iff.
Qed.

Lemma gtb_gt (x y : Q) : Num.gtb x y = true <-> y < x.
Proof. unfold Num.gtb. apply ltb_lt. Qed.

Lemma gtb_le (x y : Q) : Num.gtb x y = false <-> x <= y.
Proof. unfold Num.gtb. apply ltb_ge. Qed.

Lemma geb_ge (x y : Q) : Num.geb x y = true <-> y <= x.
Proof. unfold Num.geb. apply Qle_bool_iff. Qed.

Lemma geb_lt (x y : Q) : Num.geb x y = false <-> x < y.
Proof.
  unfold Num.geb. split; intro H.
  - apply Qnot_le_lt. intro Hle. apply Qle_bool_iff in Hle. congruence.
  - destruct (Qle_bool y x) eqn:E; [|reflexivity].
    apply Qle_bool_iff in E. exfalso. exact (Qlt_not_le _ _ H E).
Qed.

Lemma eqb_eq (x y : Q) : Num.eqb x y = true <-> x == y.
Proof. unfold Num.eqb. apply Qeq_bool_iff. Qed.

Lemma eqb_neq (x y : Q) : Num.eqb x y = false <-> ~ x == y.
Proof.
  unfold Num.eqb. split; intro H.
  - intro E. apply Qeq_bool_iff in E. congruence.
  - destruct (Qeq_bool x y) eqn:E; [|reflexivity].
    apply Qeq_bool_iff in E. contradiction.
Qed.

(** ** The search of [np.interp] *)

Lemma item_of_nat (arr : list Q) (j : nat) :
  Numpy.item arr (Z.of_nat j) = nth j arr 0.
Proof. unfold Numpy.item. now rewrite Nat2Z.id. Qed.

(** The scan passes every element that is at most the key and stops at the
    first larger one. *)
Lemma scan_spec (key : Q) (rest : list Q) :
  forall i : Z,
  exists k : nat,
    Numpy.scan key rest i = (i + Z.of_nat k)%Z /\
    (k <= length rest)%nat /\
    (forall m, (m < k)%nat -> nth m rest 0 <= key) /\
    ((k < length rest)%nat -> key < nth k rest 0).
Proof.
  induction rest as [|a rest IH]; intro i; simpl.
  - exists 0%nat. split; [lia|]. split; [lia|]. split; intros; lia.
  - destruct (Num.geb key a) eqn:E.
    + destruct (IH (i + 1)%Z) as (k & Hk & Hlen & Hle & Hgt).
      exists (S k). split; [rewrite Hk; lia|]. split; [lia|]. split.
      * intros [|m] Hm; [apply geb_ge; exact E | apply Hle; lia].
      * intro H. apply Hgt. lia.
    + exists 0%nat. split; [lia|]. split; [lia|]. split.
      * intros m Hm; lia.
      * intros _. apply geb_lt. exact E.
Qed.

(** The bisection ends, within its fuel, just above an element that is at
    most the key and at an element that is larger (or at the end): it
    needs, on entry, an element at most the key at [imin] or just below
    it, and a larger one at [imax] unless [imax] is the end.  The array
    need not be ascending. *)
Lemma bisect_spec (key : Q) (arr : list Q) :
  forall (fuel : nat) (imin imax : Z),
    (imax - imin <= Z.of_nat fuel)%Z ->
    (0 <= imin <= imax)%Z ->
    (imax <= Z.of_nat (length arr))%Z ->
    ((imin < imax)%Z /\ Numpy.item arr imin <= key) \/
    ((1 <= imin)%Z /\ Numpy.item arr (imin - 1) <= key) ->
    imax = Z.of_nat (length arr) \/ key < Numpy.item arr imax ->
    let r := Numpy.bisect fuel key arr imin imax in
    (1 <= r <= Z.of_nat (length arr))%Z /\
    Numpy.item arr (r - 1) <= key /\
    (r = Z.of_nat (length arr) \/ key < Numpy.item arr r).
Proof.
  assert (Hdone : forall imin imax : Z,
             imin = imax ->
             (imax <= Z.of_nat (length arr))%Z ->
             ((imin < imax)%Z /\ Numpy.item arr imin <= key) \/
             ((1 <= imin)%Z /\ Numpy.item arr (imin - 1) <= key) ->
             imax = Z.of_nat (length arr) \/ key < Numpy.item arr imax ->
             (1 <= imin <= Z.of_nat (length arr))%Z /\
             Numpy.item arr (imin - 1) <= key /\
             (imin = Z.of_nat (length arr) \/ key < Numpy.item arr imin)).
  { intros imin imax -> Hlen [[Hlt _] | [H1 Hle]] Hhi; [lia|].
    split; [lia|]. split; [exact Hle | exact Hhi]. }
  induction fuel as [|fuel IH]; intros imin imax Hfuel Hord Hlen Hlo Hhi; simpl.
  - apply (Hdone imin imax); try assumption. lia.
  - destruct (imin <? imax)%Z eqn:Elt.
    + apply Z.ltb_lt in Elt.
      rewrite Z.shiftr_div_pow2 by lia. change (2 ^ 1)%Z with 2%Z.
      pose proof (Z.div_pos (imax - imin) 2 ltac:(lia) ltac:(lia)) as Hq0.
      pose proof (Z.div_lt_upper_bound (imax - imin) 2 (imax - imin)
                    ltac:(lia) ltac:(lia)) as Hq1.
      pose proof (Z.mul_div_le (imax - imin) 2 ltac:(lia)) as Hq2.
      set (imid := (imin + (imax - imin) / 2)%Z) in *.
      assert (Hmid : (imin <= imid < imax)%Z) by (unfold imid; lia).
      destruct (Num.geb key (Numpy.item arr imid)) eqn:Eg.
      * apply geb_ge in Eg. apply IH; try lia.
        -- right. split; [lia|].
           replace (imid + 1 - 1)%Z with imid by lia. exact Eg.
        -- exact Hhi.
      * apply geb_lt in Eg. apply IH; try lia.
        -- destruct Hlo as [[_ Hle] | Hb]; [|right; exact Hb].
           left. split; [|exact Hle].
           destruct (Z.eq_dec imid imin) as [E|E]; [|lia].
           exfalso. rewrite E in Eg. exact (Qlt_not_le _ _ Eg Hle).
        -- right. exact Eg.
    + apply Z.ltb_ge in Elt. apply (Hdone imin imax); try assumption. lia.
Qed.

Lemma inside_at (key : Q) (arr : list Q) (j : Z) :
  (0 <= j < Z.of_nat (length arr))%Z ->
  Numpy.item arr j <= key ->
  key <= nth (length arr - 1) arr 0 ->
  ((j + 1 < Z.of_nat (length arr))%Z -> key < Numpy.item arr (j + 1)) ->
  search_result key arr j.
Proof.
  intros Hj Hle Hlast Hnext.
  rewrite <- (Z2Nat.id j) by lia.
  apply inside.
  - lia.
  - exact Hle.
  - exact Hlast.
  - intro H. replace (S (Z.to_nat j)) with (Z.to_nat (j + 1)) by lia.
    apply Hnext. lia.
Qed.

Lemma after_bisect (key : Q) (arr : list Q) (r : Z) :
  key <= nth (length arr - 1) arr 0 ->
  (1 <= r <= Z.of_nat (length arr))%Z /\
  Numpy.item arr (r - 1) <= key /\
  (r = Z.of_nat (length arr) \/ key < Numpy.item arr r) ->
  search_result key arr (r - 1).
Proof.
  intros Hlast (Hr & Hle & Hhi).
  apply inside_at; try assumption; [lia|].
  intro H. replace (r - 1 + 1)%Z with r by lia.
  destruct Hhi as [E | Hlt]; [lia | exact Hlt].
Qed.

(** Whatever the guess, and whether or not the array is ascending, the
    search returns a place where the key fits between two neighbours. *)
Lemma binary_search_with_guess_spec (key : Q) (arr : list Q) (guess : Z) :
  arr <> [] ->
  search_result key arr (Numpy.binary_search_with_guess key arr guess).
Proof.
  intro Hne. unfold Numpy.binary_search_with_guess.
  assert (Hlen : (0 < length arr)%nat) by (destruct arr; [congruence | simpl; lia]).
  assert (Hlast_item : Numpy.item arr (Z.of_nat (length arr) - 1)
                       = nth (length arr - 1) arr 0).
  { unfold Numpy.item. f_equal. lia. }
  rewrite Hlast_item.
  destruct (Num.gtb key (nth (length arr - 1) arr 0)) eqn:Eg.
  { apply above_last. apply gtb_gt. exact Eg. }
  apply gtb_le in Eg.
  change (Numpy.item arr 0) with (nth 0 arr 0).
  destruct (Num.ltb key (nth 0 arr 0)) eqn:El.
  { apply below_first. apply ltb_lt. exact El. }
  apply ltb_ge in El.
  destruct (Z.of_nat (length arr) <=? 4)%Z eqn:E4.
  { (* linear search *)
    unfold Numpy.linear_search. change (Z.to_nat 1) with 1%nat.
    destruct arr as [|a rest]; [congruence|]. cbn [skipn].
    destruct (scan_spec key rest 1) as (k & Hk & Hklen & Hle & Hgt).
    rewrite Hk. replace (1 + Z.of_nat k - 1)%Z with (Z.of_nat k) by lia.
    apply inside.
    - simpl. lia.
    - destruct k as [|k]; simpl; [exact El | apply Hle; lia].
    - exact Eg.
    - intro H. simpl. apply Hgt. simpl in H. lia. }
  apply Z.leb_gt in E4.
  set (g1 := if (guess >? Z.of_nat (length arr) - 3)%Z
             then (Z.of_nat (length arr) - 3)%Z else guess).
  set (g := if (g1 <? 1)%Z then 1%Z else g1).
  assert (Hg : (1 <= g <= Z.of_nat (length arr) - 3)%Z).
  { unfold g, g1. rewrite Z.gtb_ltb.
    destruct (Z.of_nat (length arr) - 3 <? guess)%Z eqn:E1;
      [apply Z.ltb_lt in E1 | apply Z.ltb_ge in E1];
      match goal with |- context [(?a <? 1)%Z] => destruct (a <? 1)%Z eqn:E2 end;
      try apply Z.ltb_lt in E2; try apply Z.ltb_ge in E2; lia. }
  clearbody g. clear g1.
  unfold Numpy.LIKELY_IN_CACHE_SIZE.
  destruct (Num.ltb key (Numpy.item arr g)) eqn:L0.
  - apply ltb_lt in L0.
    destruct (Num.ltb key (Numpy.item arr (g - 1))) eqn:L1.
    + apply ltb_lt in L1.
      assert (Hg1 : (g - 1 <> 0)%Z).
      { intro E. rewrite E in L1. exact (Qlt_not_le _ _ L1 El). }
      apply after_bisect; [exact Eg|].
      destruct ((g >? 8)%Z && Num.geb key (Numpy.item arr (g - 8))) eqn:E.
      * apply andb_true_iff in E. destruct E as [E1 E2].
        apply Z.gtb_lt in E1. apply geb_ge in E2.
        apply bisect_spec; try lia.
        -- left. split; [lia | exact E2].
        -- right. exact L1.
      * apply bisect_spec; try lia.
        -- left. split; [lia | exact El].
        -- right. exact L1.
    + apply ltb_ge in L1.
      apply inside_at; try assumption; [lia|].
      intros _. replace (g - 1 + 1)%Z with g by lia. exact L0.
  - apply ltb_ge in L0.
    destruct (Num.ltb key (Numpy.item arr (g + 1))) eqn:L1.
    { apply ltb_lt in L1. apply inside_at; try assumption; [lia|].
      intros _. exact L1. }
    apply ltb_ge in L1.
    destruct (Num.ltb key (Numpy.item arr (g + 2))) eqn:L2.
    { apply ltb_lt in L2. apply inside_at; try assumption; [lia|].
      intros _. replace (g + 1 + 1)%Z with (g + 2)%Z by lia. exact L2. }
    apply ltb_ge in L2.
    apply after_bisect; [exact Eg|].
    destruct ((g <? Z.of_nat (length arr) - 8 - 1)%Z
              && Num.ltb key (Numpy.item arr (g + 8))) eqn:E.
    + apply andb_true_iff in E. destruct E as [E1 E2].
      apply Z.ltb_lt in E1. apply ltb_lt in E2.
      apply bisect_spec; try lia.
      * left. split; [lia | exact L2].
      * right. exact E2.
    + apply bisect_spec; try lia.
      left. split; [lia | exact L2].
Qed.

(** ** The four cases of [np.interp] *)

(** On non-empty arrays of one length [np.interp] raises nothing and its
    value falls under one of the four cases. *)
Lemma interp_spec (x : Q) (xp fp : list Q) :
  xp <> [] ->
  length fp = length xp ->
  exists b, Numpy.interp x xp fp = inr b /\ interp_result x xp fp b.
Proof.
  intros Hne Hlen. unfold Numpy.interp.
  destruct (length xp =? 0)%nat eqn:E0.
  { apply Nat.eqb_eq in E0. destruct xp; [congruence | discriminate]. }
  rewrite Hlen, Nat.eqb_refl. simpl negb. cbv iota.
  destruct (length xp =? 1)%nat eqn:E1.
  - apply Nat.eqb_eq in E1.
    destruct (Num.ltb x (nth 0 xp 0)) eqn:El.
    { eexists; split; [reflexivity|]. apply clamp_left. apply ltb_lt, El. }
    destruct (Num.gtb x (nth 0 xp 0)) eqn:Eg.
    { eexists; split; [reflexivity|].
      apply gtb_gt in Eg. rewrite E1. simpl Nat.sub.
      replace (nth 0 fp 0) with (nth (length xp - 1) fp 0) by (rewrite E1; reflexivity).
      apply clamp_right. rewrite E1. exact Eg. }
    eexists; split; [reflexivity|].
    apply ltb_ge in El. apply gtb_le in Eg.
    apply at_sample.
    + lia.
    + apply Qle_antisym; assumption.
    + intro H. lia.
  - apply Nat.eqb_neq in E1.
    pose proof (binary_search_with_guess_spec x xp 0 Hne) as Hs.
    remember (Numpy.binary_search_with_guess x xp 0) as jz eqn:Ej. clear Ej.
    destruct Hs as [Hab | Hbe | j Hj Hle Hlast Hnext].
    + replace (Z.of_nat (length xp) =? -1)%Z with false by (symmetry; apply Z.eqb_neq; lia).
      rewrite Z.eqb_refl.
      eexists; split; [reflexivity|]. apply clamp_right. exact Hab.
    + simpl. eexists; split; [reflexivity|]. apply clamp_left. exact Hbe.
    + replace (Z.of_nat j =? -1)%Z with false by (symmetry; apply Z.eqb_neq; lia).
      replace (Z.of_nat j =? Z.of_nat (length xp))%Z with false
        by (symmetry; apply Z.eqb_neq; lia).
      replace (Z.of_nat j + 1)%Z with (Z.of_nat (j + 1)) by lia.
      rewrite !item_of_nat.
      destruct (Z.of_nat j =? Z.of_nat (length xp) - 1)%Z eqn:Elast.
      * apply Z.eqb_eq in Elast.
        assert (j = length xp - 1)%nat by lia. subst j.
        eexists; split; [reflexivity|]. apply at_sample; try assumption.
        apply Qle_antisym; assumption.
      * apply Z.eqb_neq in Elast.
        destruct (Num.eqb (nth j xp 0) x) eqn:Ee.
        -- apply eqb_eq in Ee.
           eexists; split; [reflexivity|]. apply at_sample; assumption.
        -- apply eqb_neq in Ee.
           eexists; split; [reflexivity|].
           assert (HS : (S j < length xp)%nat) by lia.
           apply (on_segment x xp fp j HS).
           ++ apply Qle_lteq in Hle. destruct Hle as [Hlt|Heq]; [exact Hlt|contradiction].
           ++ apply Hnext. exact HS.
Qed.

(** ** The baseline *)

Lemma series_lengths (series : IsothermSeries) :
  length (loading_of series) = length (rh_of series).
Proof. unfold loading_of, rh_of. now rewrite !length_map. Qed.

Lemma rh_of_nonempty (series : IsothermSeries) :
  series <> [] -> rh_of series <> [].
Proof. destruct series; [congruence | discriminate]. Qed.

(** On a non-empty series the baseline is computed, whatever [start_rh]. *)
Lemma compute_baseline_spec (series : IsothermSeries) (start_rh : Q) :
  series <> [] ->
  exists b,
    compute_baseline series start_rh = inr b /\
    interp_result start_rh (rh_of series) (loading_of series) b.
Proof.
  intro Hne. unfold compute_baseline.
  apply interp_spec; [apply rh_of_nonempty, Hne | apply series_lengths].
Qed.

Lemma last_nth (A : Type) (xs : list A) (d : A) :
  last xs d = nth (length xs - 1) xs d.
Proof.
  induction xs as [|a [|b xs] IH]; try reflexivity.
  change (last (a :: b :: xs) d) with (last (b :: xs) d). rewrite IH.
  simpl. now rewrite Nat.sub_0_r.
Qed.

(** C2. Clamping without error.  On every non-empty series the baseline is
    computed for every [start_rh]; when [start_rh] is strictly below every
    RH of the series (below the minimum) it is the loading of the first
    point, and when it is strictly above every RH (above the maximum) it is
    the loading of the last point. *)
Theorem compute_baseline_clamps
  (p : Q * Q) (rest : IsothermSeries) (start_rh : Q) :
  (exists b, compute_baseline (p :: rest) start_rh = inr b) /\
  ((forall r, In r (rh_of (p :: rest)) -> start_rh < r) ->
   compute_baseline (p :: rest) start_rh = inr (snd p)) /\
  ((forall r, In r (rh_of (p :: rest)) -> r < start_rh) ->
   compute_baseline (p :: rest) start_rh = inr (snd (last (p :: rest) p))).
Proof.
  assert (Hne : p :: rest <> []) by discriminate.
  destruct (compute_baseline_spec (p :: rest) start_rh Hne) as (b & Hb & Hr).
  pose proof (series_lengths (p :: rest)) as Hlen.
  split; [exists b; exact Hb|]. split; intro Hall.
  - rewrite Hb. f_equal.
    assert (H0 : start_rh < nth 0 (rh_of (p :: rest)) 0)
      by (apply Hall; left; reflexivity).
    destruct Hr as [Hl | Hrgt | j Hj He Hn | j Hj Hlo Hhi].
    + reflexivity.
    + exfalso. apply (Qlt_irrefl start_rh).
      eapply Qlt_trans; [|exact Hrgt]. apply Hall. apply nth_In. simpl; lia.
    + exfalso. apply (Qlt_irrefl start_rh).
      assert (Hin : start_rh < nth j (rh_of (p :: rest)) 0)
        by (apply Hall; apply nth_In; exact Hj).
      rewrite He in Hin. exact Hin.
    + exfalso. apply (Qlt_irrefl start_rh).
      eapply Qlt_trans; [|exact Hlo]. apply Hall. apply nth_In. lia.
  - rewrite Hb. f_equal.
    assert (Hlast : snd (last (p :: rest) p) =
                    nth (length (rh_of (p :: rest)) - 1) (loading_of (p :: rest)) 0).
    { rewrite last_nth. unfold loading_of, rh_of. rewrite length_map.
      rewrite <- (map_nth snd). apply nth_indep.
      rewrite length_map. simpl; lia. }
    destruct Hr as [Hl | Hrgt | j Hj He Hn | j Hj Hlo Hhi].
    + exfalso. apply (Qlt_irrefl start_rh).
      eapply Qlt_trans; [exact Hl|]. apply Hall. left; reflexivity.
    + symmetry. exact Hlast.
    + exfalso. apply (Qlt_irrefl start_rh).
      assert (Hin : nth j (rh_of (p :: rest)) 0 < start_rh)
        by (apply Hall; apply nth_In; exact Hj).
      rewrite He in Hin. exact Hin.
    + exfalso. apply (Qlt_irrefl start_rh).
      eapply Qlt_trans; [exact Hhi|]. apply Hall. apply nth_In. lia.
Qed.

(** Below and above the range of a three-point series. *)
Lemma compute_baseline_clamps_witness :
  compute_baseline [(0, 1 # 10); (50, 3 # 10); (100, 6 # 10)] (-5) = inr (1 # 10) /\
  compute_baseline [(0, 1 # 10); (50, 3 # 10); (100, 6 # 10)] 120 = inr (6 # 10).
Proof.
  pose proof (compute_baseline_clamps (0, 1 # 10) [(50, 3 # 10); (100, 6 # 10)] (-5))
    as (_ & Hlow & _).
  pose proof (compute_baseline_clamps (0, 1 # 10) [(50, 3 # 10); (100, 6 # 10)] 120)
    as (_ & _ & Hhigh).
  split.
  - apply Hlow. simpl. intros r [<- | [<- | [<- | []]]]; reflexivity.
  - apply Hhigh. simpl. intros r [<- | [<- | [<- | []]]]; reflexivity.
Defined.

(** ** The adjusted uptake *)

Lemma adjusted_uptake_defined (baseline_q loading : Q) :
  ~ 1 + baseline_q == 0 ->
  adjusted_uptake baseline_q loading =
  Some ((1 + loading - (1 + baseline_q)) / (1 + baseline_q)).
Proof.
  intro Hnz. unfold adjusted_uptake, Num.truediv, initial_total_mass.
  apply eqb_neq in Hnz. now rewrite Hnz.
Qed.

Lemma nth_error_adjusted (series : IsothermSeries) (b : Q) (k : nat) (rh q : Q) :
  nth_error series k = Some (rh, q) ->
  nth_error (combine (rh_of series) (adjusted_column b (loading_of series))) k =
  Some (rh, adjusted_uptake b q).
Proof.
  revert k. induction series as [|[r l] rest IH]; intros [|k] H; simpl in *;
    try discriminate.
  - now injection H as -> ->.
  - apply IH, H.
Qed.

(** ** The computation in binary64 *)

(** What lines 68 to 72 compute when every operation is rounded, as the
    script runs them.  The rounding is analysed first: it is monotone, and
    its error is at most [u * |x| + eta]. *)

Section InBinary64.
Import Binary64.

(** *** Powers of two *)

Lemma pow2_pos (e : Z) : 0 < 2 ^ e.
Proof. apply Qpower_0_lt. reflexivity. Qed.

Lemma pow2_le (a b : Z) : (a <= b)%Z -> 2 ^ a <= 2 ^ b.
Proof. intro H. apply Qpower_le_compat_l; [exact H | discriminate]. Qed.

Lemma pow2_lt_inv (a b : Z) : 2 ^ a < 2 ^ b -> (a < b)%Z.
Proof. intro H. apply (Qpower_lt_compat_l_inv 2); [exact H | reflexivity]. Qed.

Lemma pow2_Z (n : Z) : (0 <= n)%Z -> inject_Z (2 ^ n) == 2 ^ n.
Proof. intro H. apply (Zpower_Qpower 2 n H). Qed.

Lemma pow2_minus (a b : Z) : 2 ^ (a - b) == 2 ^ a / 2 ^ b.
Proof. apply Qpower_minus. discriminate. Qed.

(** *** The leading bit *)

Lemma log2_bounds (n : Z) :
  (0 < n)%Z -> 2 ^ Z.log2 n <= inject_Z n /\ inject_Z n < 2 ^ (Z.log2 n + 1).
Proof.
  intro H. destruct (Z.log2_spec n H) as [Hlo Hhi].
  pose proof (Z.log2_nonneg n) as Hnn.
  rewrite <- !pow2_Z by lia. rewrite <- Zle_Qle, <- Zlt_Qlt.
  split; [exact Hlo | exact Hhi].
Qed.

Lemma ilog2_spec (x : Q) :
  0 < x -> 2 ^ ilog2 x <= x /\ x < 2 ^ (ilog2 x + 1).
Proof.
  intro Hx. unfold ilog2.
  destruct x as [n d]. cbn [Qnum Qden].
  assert (Hn : (0 < n)%Z).
  { unfold Qlt in Hx. cbn in Hx. lia. }
  destruct (log2_bounds n Hn) as [Hn1 Hn2].
  destruct (log2_bounds (Zpos d) eq_refl) as [Hd1 Hd2].
  set (la := Z.log2 n) in *. set (ld := Z.log2 (Zpos d)) in *.
  assert (Hxd : (n # d) * inject_Z (Zpos d) == inject_Z n).
  { rewrite (Qmake_Qdiv n d). field. discriminate. }
  pose proof (pow2_pos la) as Pla. pose proof (pow2_pos ld) as Pld.
  destruct (Qle_bool (2 ^ (la - ld)) (n # d)) eqn:E.
  - apply Qle_bool_iff in E. split; [exact E|].
    replace (la - ld + 1)%Z with ((la + 1) - ld)%Z by ring.
    rewrite pow2_minus. apply Qlt_shift_div_l; [exact Pld|].
    apply Qle_lt_trans with ((n # d) * inject_Z (Zpos d)).
    + apply Qmult_le_l; [exact Hx | exact Hd1].
    + rewrite Hxd. exact Hn2.
  - assert (E' : n # d < 2 ^ (la - ld)).
    { apply Qnot_le_lt. intro H. apply Qle_bool_iff in H. congruence. }
    replace (la - ld - 1 + 1)%Z with (la - ld)%Z by ring.
    split; [|exact E'].
    replace (la - ld - 1)%Z with (la - (ld + 1))%Z by ring.
    rewrite pow2_minus. apply Qle_shift_div_r; [apply pow2_pos|].
    apply Qle_trans with (inject_Z n); [exact Hn1|].
    rewrite <- Hxd. apply Qlt_le_weak.
    apply Qmult_lt_l; [exact Hx | exact Hd2].
Qed.

Lemma ilog2_unique (x : Q) (e : Z) :
  2 ^ e <= x -> x < 2 ^ (e + 1) -> ilog2 x = e.
Proof.
  intros Hlo Hhi.
  assert (Hx : 0 < x) by (apply Qlt_le_trans with (2 ^ e); [apply pow2_pos | exact Hlo]).
  destruct (ilog2_spec x Hx) as [Ilo Ihi].
  assert (H1 : (ilog2 x < e + 1)%Z).
  { apply pow2_lt_inv. apply Qle_lt_trans with x; assumption. }
  assert (H2 : (e < ilog2 x + 1)%Z).
  { apply pow2_lt_inv. apply Qle_lt_trans with x; assumption. }
  lia.
Qed.

Lemma ilog2_le (x y : Q) : 0 < x -> x <= y -> (ilog2 x <= ilog2 y)%Z.
Proof.
  intros Hx Hxy.
  assert (Hy : 0 < y) by (apply Qlt_le_trans with x; assumption).
  destruct (ilog2_spec x Hx) as [Xlo _]. destruct (ilog2_spec y Hy) as [_ Yhi].
  assert (H : (ilog2 x < ilog2 y + 1)%Z).
  { apply pow2_lt_inv. apply Qle_lt_trans with x; [exact Xlo|].
    apply Qle_lt_trans with y; assumption. }
  lia.
Qed.

Lemma ilog2_comp (x y : Q) : 0 < x -> x == y -> ilog2 x = ilog2 y.
Proof.
  intros Hx E. symmetry. destruct (ilog2_spec x Hx) as [Lo Hi].
  apply ilog2_unique; rewrite <- E; assumption.
Qed.

(** *** Rounding to the nearest integer *)

Lemma round_half_even_cases (y : Q) :
  (round_half_even y = Qfloor y /\ y - inject_Z (Qfloor y) <= 1 # 2) \/
  (round_half_even y = (Qfloor y + 1)%Z /\ 1 # 2 <= y - inject_Z (Qfloor y)).
Proof.
  unfold round_half_even.
  destruct (Qcompare_spec (y - inject_Z (Qfloor y)) (1 # 2)) as [E | L | G].
  - destruct (Z.even (Qfloor y)); [left | right]; (split; [reflexivity|]);
      rewrite E; apply Qle_refl.
  - left. split; [reflexivity | apply Qlt_le_weak, L].
  - right. split; [reflexivity | apply Qlt_le_weak, G].
Qed.

Lemma floor_bounds (y : Q) :
  inject_Z (Qfloor y) <= y /\ y < inject_Z (Qfloor y) + 1.
Proof.
  split; [apply Qfloor_le|].
  pose proof (Qlt_floor y) as H. rewrite inject_Z_plus in H. exact H.
Qed.

Lemma round_half_even_error (y : Q) :
  Qabs (inject_Z (round_half_even y) - y) <= 1 # 2.
Proof.
  destruct (floor_bounds y) as [Lo Hi].
  apply Qabs_Qle_condition.
  destruct (round_half_even_cases y) as [[-> H] | [-> H]];
    rewrite ?inject_Z_plus; change (inject_Z 1) with 1; split; lra.
Qed.

Lemma round_half_even_comp (y1 y2 : Q) :
  y1 == y2 -> round_half_even y1 = round_half_even y2.
Proof.
  intro E. unfold round_half_even.
  rewrite (Qfloor_comp _ _ E). rewrite E. reflexivity.
Qed.

Lemma round_half_even_Z (k : Z) : round_half_even (inject_Z k) = k.
Proof.
  unfold round_half_even. rewrite Qfloor_Z.
  destruct (Qcompare_spec (inject_Z k - inject_Z k) (1 # 2)) as [E | L | G].
  - exfalso. assert (H : inject_Z k - inject_Z k == 0) by ring. rewrite H in E. discriminate E.
  - reflexivity.
  - exfalso. assert (H : inject_Z k - inject_Z k == 0) by ring. rewrite H in G. discriminate G.
Qed.

Lemma round_half_even_le (y1 y2 : Q) :
  y1 <= y2 -> (round_half_even y1 <= round_half_even y2)%Z.
Proof.
  intro Hle.
  pose proof (Qfloor_resp_le y1 y2 Hle) as Hf.
  destruct (Z.eq_dec (Qfloor y1) (Qfloor y2)) as [E | N].
  - unfold round_half_even. rewrite E.
    destruct (Qcompare_spec (y1 - inject_Z (Qfloor y2)) (1 # 2)) as [E1 | L1 | G1];
      destruct (Qcompare_spec (y2 - inject_Z (Qfloor y2)) (1 # 2)) as [E2 | L2 | G2];
      try lia; try (exfalso; lra);
      destruct (Z.even (Qfloor y2)); lia.
  - destruct (round_half_even_cases y1) as [[-> _] | [-> _]];
      destruct (round_half_even_cases y2) as [[-> _] | [-> _]]; lia.
Qed.

(** *** Rounding of a positive number *)

Lemma exponent_le (x y : Q) : 0 < x -> x <= y -> (exponent x <= exponent y)%Z.
Proof.
  intros Hx Hxy. unfold exponent. pose proof (ilog2_le x y Hx Hxy). lia.
Qed.

Lemma exponent_comp (x y : Q) : 0 < x -> x == y -> exponent x = exponent y.
Proof. intros Hx E. unfold exponent. now rewrite (ilog2_comp x y Hx E). Qed.

Lemma round_pos_comp (x y : Q) : 0 < x -> x == y -> round_pos x == round_pos y.
Proof.
  intros Hx E. unfold round_pos. rewrite (exponent_comp x y Hx E).
  rewrite (round_half_even_comp (x / 2 ^ exponent y) (y / 2 ^ exponent y)).
  - reflexivity.
  - rewrite E. reflexivity.
Qed.

Lemma round_pos_error (x : Q) :
  Qabs (round_pos x - x) <= (1 # 2) * 2 ^ exponent x.
Proof.
  unfold round_pos. set (c := exponent x).
  pose proof (round_half_even_error (x / 2 ^ c)) as H.
  pose proof (pow2_pos c) as Hc.
  assert (E : inject_Z (round_half_even (x / 2 ^ c)) * 2 ^ c - x
              == (inject_Z (round_half_even (x / 2 ^ c)) - x / 2 ^ c) * 2 ^ c).
  { assert (Hp : ~ 2 ^ c == 0) by (apply Qpower_not_0; discriminate).
    revert Hp. generalize (2 ^ c), (inject_Z (round_half_even (x / 2 ^ c))).
    intros p m Hp. field. exact Hp. }
  rewrite E, Qabs_Qmult, (Qabs_pos (2 ^ c)) by (apply Qlt_le_weak, Hc).
  apply Qmult_le_compat_r; [exact H | apply Qlt_le_weak, Hc].
Qed.

Lemma exponent_bound (x : Q) :
  0 < x -> 2 ^ exponent x <= 2 ^ (-52) * x \/ exponent x = (-1074)%Z.
Proof.
  intro Hx. unfold exponent.
  destruct (Z.max_spec (ilog2 x - 52) (-1074)) as [[_ ->] | [_ ->]]; [now right | left].
  destruct (ilog2_spec x Hx) as [Lo _].
  replace (ilog2 x - 52)%Z with (-52 + ilog2 x)%Z by ring.
  rewrite Qpower_plus by discriminate.
  apply Qmult_le_l; [apply pow2_pos | exact Lo].
Qed.

Lemma round_pos_nonneg (x : Q) : 0 < x -> 0 <= round_pos x.
Proof.
  intro Hx. unfold round_pos.
  apply Qmult_le_0_compat; [|apply Qlt_le_weak, pow2_pos].
  change 0 with (inject_Z 0). rewrite <- Zle_Qle.
  rewrite <- (round_half_even_Z 0). apply round_half_even_le.
  apply Qle_shift_div_l; [apply pow2_pos|]. rewrite Qmult_0_l. apply Qlt_le_weak, Hx.
Qed.

Lemma round_pos_le (x y : Q) : 0 < x -> x <= y -> round_pos x <= round_pos y.
Proof.
  intros Hx Hxy.
  assert (Hy : 0 < y) by (apply Qlt_le_trans with x; assumption).
  pose proof (exponent_le x y Hx Hxy) as Hc.
  unfold round_pos.
  destruct (Z.eq_dec (exponent x) (exponent y)) as [E | N].
  - rewrite E. apply Qmult_le_compat_r; [|apply Qlt_le_weak, pow2_pos].
    rewrite <- Zle_Qle. apply round_half_even_le.
    apply Qmult_le_compat_r; [exact Hxy|].
    apply Qinv_le_0_compat, Qlt_le_weak, pow2_pos.
  - (* the exponents differ: a power of two lies in between *)
    assert (Hlt : (exponent x < exponent y)%Z) by lia.
    assert (Hey : exponent y = (ilog2 y - 52)%Z) by (unfold exponent in *; lia).
    assert (Hex : (ilog2 x - 52 <= exponent x)%Z) by (unfold exponent; lia).
    destruct (ilog2_spec x Hx) as [_ Xhi]. destruct (ilog2_spec y Hy) as [Ylo _].
    set (cx := exponent x) in *. set (cy := exponent y) in *.
    apply Qle_trans with (2 ^ ilog2 y).
    + (* round_pos x <= 2 ^ ilog2 y *)
      assert (Hk : (0 <= ilog2 y - cx)%Z) by lia.
      assert (Epow : 2 ^ ilog2 y == inject_Z (2 ^ (ilog2 y - cx)) * 2 ^ cx).
      { rewrite pow2_Z by exact Hk. rewrite <- Qpower_plus by discriminate.
        replace (ilog2 y - cx + cx)%Z with (ilog2 y) by ring. reflexivity. }
      rewrite Epow. apply Qmult_le_compat_r; [|apply Qlt_le_weak, pow2_pos].
      rewrite <- Zle_Qle.
      rewrite <- (round_half_even_Z (2 ^ (ilog2 y - cx))).
      apply round_half_even_le.
      apply Qle_shift_div_r; [apply pow2_pos|]. rewrite <- Epow.
      apply Qlt_le_weak. apply Qlt_le_trans with (2 ^ (ilog2 x + 1)); [exact Xhi|].
      apply pow2_le. lia.
    + (* 2 ^ ilog2 y <= round_pos y *)
      assert (Epow : 2 ^ ilog2 y == inject_Z (2 ^ 52) * 2 ^ cy).
      { rewrite pow2_Z by lia. rewrite <- Qpower_plus by discriminate.
        rewrite Hey. replace (52 + (ilog2 y - 52))%Z with (ilog2 y) by ring. reflexivity. }
      rewrite Epow. apply Qmult_le_compat_r; [|apply Qlt_le_weak, pow2_pos].
      rewrite <- Zle_Qle.
      rewrite <- (round_half_even_Z (2 ^ 52)) at 1.
      apply round_half_even_le.
      apply Qle_shift_div_l; [apply pow2_pos|]. rewrite <- Epow. exact Ylo.
Qed.

(** *** Rounding to binary64 *)

Lemma round64_pos (x : Q) : 0 < x -> round64 x = round_pos x.
Proof.
  intro H. unfold round64.
  destruct (Qcompare_spec x 0) as [E | L | G]; [exfalso; lra | exfalso; lra | reflexivity].
Qed.

Lemma round64_neg (x : Q) : x < 0 -> round64 x = - round_pos (- x).
Proof.
  intro H. unfold round64.
  destruct (Qcompare_spec x 0) as [E | L | G]; [exfalso; lra | reflexivity | exfalso; lra].
Qed.

Lemma round64_zero (x : Q) : x == 0 -> round64 x = 0.
Proof.
  intro H. unfold round64.
  destruct (Qcompare_spec x 0) as [E | L | G]; [reflexivity | exfalso; lra | exfalso; lra].
Qed.

Lemma round64_comp (x y : Q) : x == y -> round64 x == round64 y.
Proof.
  intro E. destruct (Q_dec x 0) as [[L | G] | Z].
  - rewrite (round64_neg x L), (round64_neg y) by (rewrite <- E; exact L).
    apply Qopp_comp, round_pos_comp; [lra | rewrite E; reflexivity].
  - rewrite (round64_pos x G), (round64_pos y) by (rewrite <- E; exact G).
    apply round_pos_comp; assumption.
  - rewrite (round64_zero x Z), (round64_zero y) by (rewrite <- E; exact Z). reflexivity.
Qed.

#[local] Instance round64_Proper : Proper (Qeq ==> Qeq) round64.
Proof. intros x y E. apply round64_comp, E. Qed.

Lemma round64_opp (x : Q) : round64 (- x) == - round64 x.
Proof.
  destruct (Q_dec x 0) as [[L | G] | Z].
  - rewrite (round64_neg x L), (round64_pos (- x)) by lra. ring.
  - rewrite (round64_pos x G), (round64_neg (- x)) by lra.
    apply Qopp_comp, round_pos_comp; [lra | ring].
  - rewrite (round64_zero x Z), (round64_zero (- x)) by lra. reflexivity.
Qed.

Lemma round64_le (x y : Q) : x <= y -> round64 x <= round64 y.
Proof.
  intro Hxy.
  destruct (Q_dec x 0) as [[Lx | Gx] | Zx].
  - rewrite (round64_neg x Lx).
    pose proof (round_pos_nonneg (- x)) as Hx.
    destruct (Q_dec y 0) as [[Ly | Gy] | Zy].
    + rewrite (round64_neg y Ly).
      pose proof (round_pos_le (- y) (- x)). lra.
    + rewrite (round64_pos y Gy). pose proof (round_pos_nonneg y Gy). lra.
    + rewrite (round64_zero y Zy). lra.
  - assert (Gy : 0 < y) by lra.
    rewrite (round64_pos x Gx), (round64_pos y Gy). apply round_pos_le; assumption.
  - rewrite (round64_zero x Zx).
    destruct (Q_dec y 0) as [[Ly | Gy] | Zy]; [lra | |].
    + rewrite (round64_pos y Gy). apply round_pos_nonneg, Gy.
    + rewrite (round64_zero y Zy). apply Qle_refl.
Qed.

Lemma round_pos_error_bound (x : Q) :
  0 < x -> Qabs (round_pos x - x) <= u * x + eta.
Proof.
  intro Hx. apply Qle_trans with ((1 # 2) * 2 ^ exponent x); [apply round_pos_error|].
  assert (Hu : 0 < u) by reflexivity. assert (He : 0 < eta) by apply pow2_pos.
  assert (Eu : (1 # 2) * 2 ^ (-52) == u) by reflexivity.
  assert (Ee : (1 # 2) * 2 ^ (-1074) == eta) by reflexivity.
  destruct (exponent_bound x Hx) as [H | ->].
  - assert (u * x >= 0) by (apply Qmult_le_0_compat; lra).
    apply Qle_trans with ((1 # 2) * (2 ^ (-52) * x)).
    + apply Qmult_le_l; [reflexivity | exact H].
    + rewrite Qmult_assoc, Eu. lra.
  - rewrite Ee. assert (u * x >= 0) by (apply Qmult_le_0_compat; lra). lra.
Qed.

Lemma round64_error (x : Q) : Qabs (round64 x - x) <= u * Qabs x + eta.
Proof.
  assert (He : 0 < eta) by apply pow2_pos.
  destruct (Q_dec x 0) as [[L | G] | Z].
  - rewrite (round64_neg x L), (Qabs_neg x) by lra.
    pose proof (round_pos_error_bound (- x)) as H.
    assert (E : - round_pos (- x) - x == - (round_pos (- x) - - x)) by ring.
    rewrite E, Qabs_opp. apply H. lra.
  - rewrite (round64_pos x G), (Qabs_pos x) by lra.
    apply round_pos_error_bound, G.
  - rewrite (round64_zero x Z).
    assert (E : 0 - x == 0) by lra. rewrite E. 
    assert (0 <= u * Qabs x).
    { apply Qmult_le_0_compat; [discriminate | apply Qabs_nonneg]. }
    change (Qabs 0) with 0. lra.
Qed.

Lemma eta_small : 0 < eta /\ eta <= 1 # 1606938044258990275541962092341162602522202993782792835301376.
Proof. split; [apply pow2_pos | vm_compute; discriminate]. Qed.

(** The error of a rounding, for a number of size at most [X]. *)
Lemma round64_err (x X : Q) :
  Qabs x <= X ->
  - (u * X + eta) <= round64 x - x /\ round64 x - x <= u * X + eta.
Proof.
  intro H. pose proof (round64_error x) as E.
  apply Qabs_Qle_condition in E. destruct E as [E1 E2].
  assert (Hu : u * Qabs x <= u * X).
  { apply Qmult_le_l; [reflexivity | exact H]. }
  split; lra.
Qed.

Lemma round64_0 : round64 0 = 0.
Proof. reflexivity. Qed.

Lemma round64_nonneg (x : Q) : 0 <= x -> 0 <= round64 x.
Proof. intro H. rewrite <- round64_0. apply round64_le, H. Qed.

Lemma round64_nonpos (x : Q) : x <= 0 -> round64 x <= 0.
Proof. intro H. rewrite <- round64_0. apply round64_le, H. Qed.

(** *** The operations on finite numbers *)

Lemma max_float_large : 2 ^ 1023 <= max_float.
Proof. vm_compute. discriminate. Qed.

Lemma rnd_finite (x : Q) :
  Qabs (round64 x) <= max_float -> rnd x = finite (round64 x).
Proof. intro H. unfold rnd. apply Qle_bool_iff in H. now rewrite H. Qed.

Lemma rnd_within (x B : Q) :
  - B <= round64 x -> round64 x <= B -> B <= 2 ^ 1023 ->
  rnd x = finite (round64 x).
Proof.
  intros H1 H2 HB. apply rnd_finite. apply Qabs_Qle_condition.
  pose proof max_float_large. split; lra.
Qed.

Lemma add_finite (a b B : Q) :
  - B <= round64 (a + b) -> round64 (a + b) <= B -> B <= 2 ^ 1023 ->
  add (finite a) (finite b) = finite (round64 (a + b)).
Proof. intros. cbn [add]. apply (rnd_within _ B); assumption. Qed.

Lemma sub_finite (a b B : Q) :
  - B <= round64 (a + - b) -> round64 (a + - b) <= B -> B <= 2 ^ 1023 ->
  sub (finite a) (finite b) = finite (round64 (a + - b)).
Proof. intros. unfold sub. cbn [opp]. apply (add_finite _ _ B); assumption. Qed.

Lemma mul_finite (a b B : Q) :
  - B <= round64 (a * b) -> round64 (a * b) <= B -> B <= 2 ^ 1023 ->
  mul (finite a) (finite b) = finite (round64 (a * b)).
Proof. intros. cbn [mul]. apply (rnd_within _ B); assumption. Qed.

Lemma div_finite (a b B : Q) :
  ~ b == 0 ->
  - B <= round64 (a / b) -> round64 (a / b) <= B -> B <= 2 ^ 1023 ->
  div (finite a) (finite b) = finite (round64 (a / b)).
Proof.
  intros Hb H1 H2 HB. cbn [div].
  apply eqb_neq in Hb. rewrite Hb. apply (rnd_within _ B); assumption.
Qed.

Lemma round64_half : round64 (1 # 2) == 1 # 2.
Proof. vm_compute. reflexivity. Qed.

Lemma round64_one : round64 1 == 1.
Proof. vm_compute. reflexivity. Qed.

Lemma round64_top : round64 (1 + 2 ^ 1022) == 2 ^ 1022.
Proof. vm_compute. reflexivity. Qed.

Lemma round64_pow1022 : round64 (2 ^ 1022) == 2 ^ 1022.
Proof. vm_compute. reflexivity. Qed.

Lemma round64_pow1023 : round64 (2 ^ 1023) == 2 ^ 1023.
Proof. vm_compute. reflexivity. Qed.

(** Division by a number that is at least one half at most doubles. *)
Lemma div_by_mass (n m : Q) :
  1 # 2 <= m -> Qabs (n / m) <= 2 * Qabs n.
Proof.
  intro Hm. unfold Qdiv. rewrite Qabs_Qmult, Qabs_Qinv, (Qabs_pos m) by lra.
  rewrite (Qmult_comm (Qabs n)).
  apply Qmult_le_compat_r; [|apply Qabs_nonneg].
  apply Qle_shift_inv_r; lra.
Qed.


(** The computation of line 72 on numbers of the data model: no step
    leaves the finite numbers. *)
Lemma adjusted_uptake_steps (b q : Q) :
  - (1 # 2) <= b -> b <= 2 ^ 1022 -> 0 <= q -> q <= 2 ^ 1022 ->
  let m := round64 (1 + b) in
  let n := round64 (round64 (1 + q) + - m) in
  1 # 2 <= m /\ m <= 2 ^ 1022 /\
  1 <= round64 (1 + q) /\ round64 (1 + q) <= 2 ^ 1022 /\
  - 2 ^ 1022 <= n /\ n <= 2 ^ 1022 /\
  initial_total_mass (finite b) = finite m /\
  adjusted_uptake (finite b) q = finite (round64 (n / m)).
Proof.
  intros Hb1 Hb2 Hq1 Hq2 m n.
  assert (P22 : 2 ^ 1022 <= 2 ^ 1023) by (apply pow2_le; lia).
  assert (P0 : 1 <= 2 ^ 1022) by (change 1 with (2 ^ 0); apply pow2_le; lia).
  assert (Hm1 : 1 # 2 <= m).
  { unfold m. rewrite <- round64_half. apply round64_le. lra. }
  assert (Hm2 : m <= 2 ^ 1022).
  { unfold m. rewrite <- round64_top. apply round64_le. lra. }
  assert (Ha1 : 1 <= round64 (1 + q)).
  { rewrite <- round64_one at 1. apply round64_le. lra. }
  assert (Ha2 : round64 (1 + q) <= 2 ^ 1022).
  { rewrite <- round64_top. apply round64_le. lra. }
  assert (Hn1 : - 2 ^ 1022 <= n).
  { unfold n. rewrite <- round64_pow1022 at 1. rewrite <- round64_opp.
    apply round64_le. lra. }
  assert (Hn2 : n <= 2 ^ 1022).
  { unfold n. rewrite <- round64_pow1022. apply round64_le. lra. }
  assert (Em : initial_total_mass (finite b) = finite m).
  { unfold initial_total_mass. apply (add_finite 1 b (2 ^ 1022)); fold m; lra. }
  repeat (split; [assumption|]).
  unfold adjusted_uptake. rewrite Em.
  rewrite (add_finite 1 q (2 ^ 1022)) by lra.
  rewrite (sub_finite (round64 (1 + q)) m (2 ^ 1022)) by (fold n; lra).
  fold n.
  assert (Hd : Qabs (n / m) <= 2 ^ 1023).
  { apply Qle_trans with (2 * Qabs n); [apply div_by_mass, Hm1|].
    assert (Habs : Qabs n <= 2 ^ 1022) by (apply Qabs_Qle_condition; split; lra).
    change (2 ^ 1023) with (2 * 2 ^ 1022). lra. }
  apply Qabs_Qle_condition in Hd. destruct Hd as [Hd1 Hd2].
  apply (div_finite n m (2 ^ 1023)); [lra | | | apply Qle_refl].
  - rewrite <- round64_pow1023 at 1. rewrite <- round64_opp. apply round64_le, Hd1.
  - rewrite <- round64_pow1023. apply round64_le, Hd2.
Qed.


Lemma abs_le (x X : Q) : - X <= x -> x <= X -> Qabs x <= X.
Proof. intros. apply Qabs_Qle_condition. split; assumption. Qed.

(** The two forms of the adjusted uptake differ by rounding errors only. *)
Lemma two_forms_close (baseline_q q : Q) :
  - (1 # 2) <= baseline_q -> baseline_q <= 2 ^ 1022 ->
  0 <= q -> q <= 2 ^ 1022 ->
  exists a a',
    adjusted_uptake (finite baseline_q) q = finite a /\
    adjusted_uptake_spec (finite baseline_q) q = finite a' /\
    Qabs (a - a') <= 2 ^ (-49) * (2 + q + baseline_q).
Proof.
  intros Hb1 Hb2 Hq1 Hq2.
  destruct (adjusted_uptake_steps baseline_q q Hb1 Hb2 Hq1 Hq2)
    as (Hm1 & Hm2 & Ha1 & Ha2 & Hn1 & Hn2 & Em & E1).
  unfold initial_total_mass in Em.
  set (m := round64 (1 + baseline_q)) in *.
  set (A := round64 (1 + q)) in *.
  set (N := round64 (A + - m)) in *.
  set (D := round64 (q + - baseline_q)).
  assert (P22 : 2 ^ 1022 <= 2 ^ 1023) by (apply pow2_le; lia).
  assert (P0 : 1 <= 2 ^ 1022) by (change 1 with (2 ^ 0); apply pow2_le; lia).
  destruct eta_small as [He1 He2].
  (* the four roundings before the division *)
  destruct (round64_err (1 + baseline_q) (1 + baseline_q)) as [Em1 Em2];
    [apply abs_le; lra|]. fold m in Em1, Em2.
  destruct (round64_err (1 + q) (1 + q)) as [Ea1 Ea2]; [apply abs_le; lra|].
  fold A in Ea1, Ea2.
  destruct (round64_err (A + - m) (A + m)) as [En1 En2]; [apply abs_le; lra|].
  fold N in En1, En2.
  destruct (round64_err (q + - baseline_q) (q + baseline_q + 1)) as [Ed1 Ed2];
    [apply abs_le; lra|]. fold D in Ed1, Ed2.
  unfold u in *.
  (* the second form does not leave the finite numbers *)
  assert (HD1 : - 2 ^ 1022 <= D).
  { unfold D. rewrite <- round64_pow1022 at 1. rewrite <- round64_opp.
    apply round64_le. lra. }
  assert (HD2 : D <= 2 ^ 1022).
  { unfold D. rewrite <- round64_top. apply round64_le. lra. }
  assert (E2 : adjusted_uptake_spec (finite baseline_q) q = finite (round64 (D / m))).
  { unfold adjusted_uptake_spec. rewrite Em.
    rewrite (sub_finite q baseline_q (2 ^ 1022)) by (fold D; lra). fold D.
    assert (Hd : Qabs (D / m) <= 2 ^ 1023).
    { apply Qle_trans with (2 * Qabs D); [apply div_by_mass, Hm1|].
      assert (Habs : Qabs D <= 2 ^ 1022) by (apply abs_le; lra).
      change (2 ^ 1023) with (2 * 2 ^ 1022). lra. }
    apply Qabs_Qle_condition in Hd. destruct Hd as [Hd1 Hd2].
    apply (div_finite D m (2 ^ 1023)); [lra | | | apply Qle_refl].
    - rewrite <- round64_pow1023 at 1. rewrite <- round64_opp. apply round64_le, Hd1.
    - rewrite <- round64_pow1023. apply round64_le, Hd2. }
  exists (round64 (N / m)), (round64 (D / m)).
  split; [exact E1|]. split; [exact E2|].
  (* the two divisions *)
  set (XN := (A + m) * (1 + (1 # 9007199254740992)) + eta).
  set (XD := (q + baseline_q + 1) * (1 + (1 # 9007199254740992)) + eta).
  assert (HN : Qabs N <= XN) by (apply abs_le; unfold XN; lra).
  assert (HD : Qabs D <= XD) by (apply abs_le; unfold XD; lra).
  destruct (round64_err (N / m) (2 * XN)) as [F1 F1'].
  { apply Qle_trans with (2 * Qabs N); [apply div_by_mass, Hm1 | lra]. }
  destruct (round64_err (D / m) (2 * XD)) as [F2 F2'].
  { apply Qle_trans with (2 * Qabs D); [apply div_by_mass, Hm1 | lra]. }
  set (e := (1 # 9007199254740992) * (A + m) + eta
            + ((1 # 9007199254740992) * (1 + q) + eta)
            + ((1 # 9007199254740992) * (1 + baseline_q) + eta)
            + ((1 # 9007199254740992) * (q + baseline_q + 1) + eta)).
  assert (Hz : Qabs ((N - D) / m) <= 2 * e).
  { apply Qle_trans with (2 * Qabs (N - D)); [apply div_by_mass, Hm1|].
    assert (Qabs (N - D) <= e) by (apply abs_le; unfold e; lra). lra. }
  apply Qabs_Qle_condition in Hz. destruct Hz as [Hz1 Hz2].
  assert (Ez : N / m - D / m == (N - D) / m) by (field; lra).
  unfold u in *. unfold XN, XD, e in *.
  change (2 ^ (-49)) with (1 # 562949953421312).
  apply abs_le; lra.
Qed.

(** The cases of [np.interp]: a sample value, or the interpolation on the
    segment that holds [x]. *)
Lemma interp_cases (x : Q) (xp fp : list Q) :
  xp <> [] ->
  length fp = length xp ->
  (exists j, (j < length xp)%nat /\ interp x xp fp = inr (finite (nth j fp 0))) \/
  (exists j, (S j < length xp)%nat /\
             nth j xp 0 < x /\ x < nth (S j) xp 0 /\
             interp x xp fp =
             inr (segment x (nth j xp 0) (nth (S j) xp 0) (nth j fp 0) (nth (S j) fp 0))).
Proof.
  intros Hne Hlen. unfold interp.
  assert (Hpos : (0 < length xp)%nat) by (destruct xp; [congruence | simpl; lia]).
  destruct (length xp =? 0)%nat eqn:E0; [apply Nat.eqb_eq in E0; lia|].
  rewrite Hlen, Nat.eqb_refl. simpl negb. cbv iota.
  destruct (length xp =? 1)%nat eqn:E1.
  - apply Nat.eqb_eq in E1. left. exists 0%nat. split; [lia|].
    rewrite E1. simpl Nat.sub.
    destruct (Num.ltb x (nth 0 xp 0)); [reflexivity|].
    destruct (Num.gtb x (nth 0 xp 0)); reflexivity.
  - apply Nat.eqb_neq in E1.
    pose proof (binary_search_with_guess_spec x xp 0 Hne) as Hs.
    remember (Numpy.binary_search_with_guess x xp 0) as jz eqn:Ej. clear Ej.
    destruct Hs as [Hab | Hbe | j Hj Hle Hlast Hnext].
    + replace (Z.of_nat (length xp) =? -1)%Z with false by (symmetry; apply Z.eqb_neq; lia).
      rewrite Z.eqb_refl. left. exists (length xp - 1)%nat. split; [lia | reflexivity].
    + simpl. left. exists 0%nat. split; [lia | reflexivity].
    + replace (Z.of_nat j =? -1)%Z with false by (symmetry; apply Z.eqb_neq; lia).
      replace (Z.of_nat j =? Z.of_nat (length xp))%Z with false
        by (symmetry; apply Z.eqb_neq; lia).
      replace (Z.of_nat j + 1)%Z with (Z.of_nat (S j)) by lia.
      rewrite !item_of_nat.
      destruct (Z.of_nat j =? Z.of_nat (length xp) - 1)%Z eqn:Elast.
      * left. exists j. split; [exact Hj | reflexivity].
      * apply Z.eqb_neq in Elast.
        destruct (Num.eqb (nth j xp 0) x) eqn:Ee.
        -- left. exists j. split; [exact Hj | reflexivity].
        -- apply eqb_neq in Ee. right. exists j.
           assert (HS : (S j < length xp)%nat) by lia.
           split; [exact HS|]. split; [|split; [apply Hnext, HS | reflexivity]].
           apply Qle_lteq in Hle. destruct Hle as [Hlt | Heq]; [exact Hlt | contradiction].
Qed.

Lemma round64_pow50 : round64 1125899906842624 == 1125899906842624.
Proof. vm_compute. reflexivity. Qed.

Lemma round64_pow_50 : round64 (1 # 1125899906842624) == 1 # 1125899906842624.
Proof. vm_compute. reflexivity. Qed.

Lemma big_small : 2535301200456458802993406410752 <= 2 ^ 1023.
Proof. vm_compute. discriminate. Qed.

Lemma mul_nonpos_mono (s t d : Q) : s <= 0 -> t <= d -> s * d <= s * t.
Proof.
  intros Hs Ht.
  assert (H : 0 <= (- s) * (d - t)) by (apply Qmult_le_0_compat; lra).
  assert (E : (- s) * (d - t) == s * t - s * d) by ring.
  rewrite E in H. lra.
Qed.

Lemma mul_nonneg_mono (s t d : Q) : 0 <= s -> t <= d -> s * t <= s * d.
Proof.
  intros Hs Ht.
  assert (H : 0 <= s * (d - t)) by (apply Qmult_le_0_compat; lra).
  assert (E : s * (d - t) == s * d - s * t) by ring.
  rewrite E in H. lra.
Qed.

Lemma mul_nonpos_nonneg (s t : Q) : s <= 0 -> 0 <= t -> s * t <= 0.
Proof.
  intros Hs Ht.
  assert (H : 0 <= (- s) * t) by (apply Qmult_le_0_compat; lra).
  assert (E : (- s) * t == - (s * t)) by ring.
  rewrite E in H. lra.
Qed.

(** The interpolation on a segment, for loadings in [[0, L]]: the result
    is within a rounding error of [[0, L]]. *)
Lemma segment_bounds (x x0 x1 f0 f1 L : Q) :
  0 <= f0 -> f0 <= L -> 0 <= f1 -> f1 <= L -> L <= 2 ^ 49 ->
  x0 < x -> x < x1 ->
  2 ^ (-50) <= x1 - x0 -> x1 - x0 <= 2 ^ 50 ->
  exists b,
    segment x x0 x1 f0 f1 = finite b /\
    - (2 ^ (-51) * (1 + L)) <= b /\ b <= L + 2 ^ (-50) * (1 + L).
Proof.
  change (2 ^ 49) with 562949953421312.
  change (2 ^ (-50)) with (1 # 1125899906842624).
  change (2 ^ 50) with 1125899906842624.
  change (2 ^ (-51)) with (1 # 2251799813685248).
  intros Hf0 Hf0L Hf1 Hf1L HL Hx0 Hx1 Hd1 Hd2.
  destruct eta_small as [He1 He2]. pose proof big_small as Hbig.
  unfold segment.
  set (D := round64 (f1 + - f0)).
  set (d := round64 (x1 + - x0)).
  assert (Hdlo : 1 # 1125899906842624 <= d).
  { unfold d. rewrite <- round64_pow_50. apply round64_le. lra. }
  assert (Hdhi : d <= 1125899906842624).
  { unfold d. rewrite <- round64_pow50. apply round64_le. lra. }
  set (t := round64 (x + - x0)).
  assert (Ht0 : 0 <= t) by (apply round64_nonneg; lra).
  assert (Htd : t <= d) by (apply round64_le; lra).
  assert (Hed : eta * d <= eta * 1125899906842624).
  { apply Qmult_le_l; [exact He1 | exact Hdhi]. }
  assert (Hed0 : 0 <= eta * d) by (apply Qmult_le_0_compat; lra).
  set (y := D / d).
  set (S := round64 y).
  set (P := round64 (S * t)).
  set (R := round64 (P + f0)).
  destruct (Qlt_le_dec f1 f0) as [Hlt | Hge].
  - (* the loading falls along the segment *)
    assert (HD0 : D <= 0) by (apply round64_nonpos; lra).
    destruct (round64_err (f1 + - f0) (f0 - f1)) as [ED _]; [apply abs_le; lra|].
    fold D in ED. unfold u in ED.
    assert (Hy0 : y <= 0) by (unfold y; apply Qle_shift_div_r; lra).
    assert (Hylo : - 1267650600228229401496703205376 <= y)
      by (unfold y; apply Qle_shift_div_l; lra).
    assert (HS0 : S <= 0) by (apply round64_nonpos, Hy0).
    destruct (round64_err y (- y)) as [ES _]; [apply abs_le; lra|].
    fold S in ES. unfold u in ES.
    assert (Hsd : D * (1 + (1 # 9007199254740992)) - eta * d <= S * d).
    { assert (E : (y * (1 + (1 # 9007199254740992)) - eta) * d
                  == D * (1 + (1 # 9007199254740992)) - eta * d) by (unfold y; field; lra).
      rewrite <- E. apply Qmult_le_compat_r; lra. }
    pose proof (mul_nonpos_mono S t d HS0 Htd) as Hst1.
    pose proof (mul_nonpos_nonneg S t HS0 Ht0) as Hst0.
    assert (HP0 : P <= 0) by (apply round64_nonpos, Hst0).
    destruct (round64_err (S * t) (- (S * t))) as [EP _]; [apply abs_le; lra|].
    fold P in EP. unfold u in EP.
    assert (HRhi : R <= L + (1 # 1125899906842624) * (1 + L)).
    { destruct (round64_err (P + f0) (2 * L + 1)) as [_ ER]; [apply abs_le; lra|].
      fold R in ER. unfold u in ER. lra. }
    assert (HRlo : - ((1 # 2251799813685248) * (1 + L)) <= R).
    { destruct (Qlt_le_dec (P + f0) 0) as [Hneg | Hpos].
      - destruct (round64_err (P + f0) (- (P + f0))) as [ER _]; [apply abs_le; lra|].
        fold R in ER. unfold u in ER. lra.
      - assert (0 <= R) by (apply round64_nonneg, Hpos). lra. }
    exists R.
    rewrite (sub_finite f1 f0 2535301200456458802993406410752) by (fold D; lra).
    rewrite (sub_finite x1 x0 2535301200456458802993406410752) by (fold d; lra).
    fold D d.
    rewrite (div_finite D d 2535301200456458802993406410752) by (fold y S; lra).
    fold y S.
    rewrite (sub_finite x x0 2535301200456458802993406410752) by (fold t; lra).
    fold t.
    rewrite (mul_finite S t 2535301200456458802993406410752) by (fold P; lra).
    fold P.
    rewrite (add_finite P f0 2535301200456458802993406410752) by (fold R; lra).
    fold R. cbn [isnan]. split; [reflexivity|]. split; assumption.
  - (* the loading rises along the segment *)
    assert (HD0 : 0 <= D) by (apply round64_nonneg; lra).
    destruct (round64_err (f1 + - f0) (f1 - f0)) as [_ ED]; [apply abs_le; lra|].
    fold D in ED. unfold u in ED.
    assert (Hy0 : 0 <= y) by (unfold y; apply Qle_shift_div_l; lra).
    assert (Hyhi : y <= 1267650600228229401496703205376)
      by (unfold y; apply Qle_shift_div_r; lra).
    assert (HS0 : 0 <= S) by (apply round64_nonneg, Hy0).
    destruct (round64_err y y) as [_ ES]; [apply abs_le; lra|].
    fold S in ES. unfold u in ES.
    assert (Hsd : S * d <= D * (1 + (1 # 9007199254740992)) + eta * d).
    { assert (E : (y * (1 + (1 # 9007199254740992)) + eta) * d
                  == D * (1 + (1 # 9007199254740992)) + eta * d) by (unfold y; field; lra).
      rewrite <- E. apply Qmult_le_compat_r; lra. }
    pose proof (mul_nonneg_mono S t d HS0 Htd) as Hst1.
    assert (Hst0 : 0 <= S * t) by (apply Qmult_le_0_compat; assumption).
    assert (HP0 : 0 <= P) by (apply round64_nonneg, Hst0).
    destruct (round64_err (S * t) (S * t)) as [_ EP]; [apply abs_le; lra|].
    fold P in EP. unfold u in EP.
    assert (HRlo : 0 <= R) by (apply round64_nonneg; lra).
    assert (HRhi : R <= L + (1 # 1125899906842624) * (1 + L)).
    { destruct (round64_err (P + f0) (P + f0)) as [_ ER]; [apply abs_le; lra|].
      fold R in ER. unfold u in ER. lra. }
    exists R.
    rewrite (sub_finite f1 f0 2535301200456458802993406410752) by (fold D; lra).
    rewrite (sub_finite x1 x0 2535301200456458802993406410752) by (fold d; lra).
    fold D d.
    rewrite (div_finite D d 2535301200456458802993406410752) by (fold y S; lra).
    fold y S.
    rewrite (sub_finite x x0 2535301200456458802993406410752) by (fold t; lra).
    fold t.
    rewrite (mul_finite S t 2535301200456458802993406410752) by (fold P; lra).
    fold P.
    rewrite (add_finite P f0 2535301200456458802993406410752) by (fold R; lra).
    fold R. cbn [isnan]. split; [reflexivity|]. split; [lra | assumption].
Qed.

Lemma pow1022_large : 2251799813685248 <= 2 ^ 1022.
Proof. vm_compute. discriminate. Qed.

(** The baseline of moderate data: a finite number within a rounding error
    of [[0, L]], and negative only strictly between two neighbouring RH
    values. *)
Lemma baseline_of_moderate_data (series : IsothermSeries) (start_rh L : Q) :
  series <> [] ->
  moderate L series ->
  exists b,
    Binary64.compute_baseline series start_rh = inr (finite b) /\
    - (2 ^ (-51) * (1 + L)) <= b /\ b <= L + 2 ^ (-50) * (1 + L) /\
    (b < 0 -> exists j, (S j < length series)%nat /\
                        nth j (rh_of series) 0 < start_rh /\
                        start_rh < nth (S j) (rh_of series) 0) /\
    - (1 # 2) <= b /\ b <= 2 ^ 1022 /\ 0 <= L /\ L <= 2 ^ 1022.
Proof.
  intros Hne (Hload & HL & Hspace).
  assert (Hlen : length (loading_of series) = length (rh_of series)) by apply series_lengths.
  assert (Hlen' : length (rh_of series) = length series) by (unfold rh_of; apply length_map).
  assert (Hnth : forall j, (j < length series)%nat ->
                           0 <= nth j (loading_of series) 0 /\
                           nth j (loading_of series) 0 <= L).
  { intros j Hj.
    assert (Hin : In (nth j (loading_of series) 0) (loading_of series)).
    { apply nth_In. rewrite Hlen, Hlen'. exact Hj. }
    unfold loading_of in Hin at 2. apply in_map_iff in Hin.
    destruct Hin as (p & Ep & Hp). rewrite <- Ep. apply Hload, Hp. }
  assert (HL0 : 0 <= L).
  { destruct series as [|p rest]; [congruence|].
    destruct (Hload p (or_introl eq_refl)). lra. }
  assert (Hb : exists b,
             Binary64.compute_baseline series start_rh = inr (finite b) /\
             - (2 ^ (-51) * (1 + L)) <= b /\ b <= L + 2 ^ (-50) * (1 + L) /\
             (b < 0 -> exists j, (S j < length series)%nat /\
                                 nth j (rh_of series) 0 < start_rh /\
                                 start_rh < nth (S j) (rh_of series) 0)).
  { unfold Binary64.compute_baseline.
    destruct (interp_cases start_rh (rh_of series) (loading_of series)
                (rh_of_nonempty series Hne) Hlen)
      as [(j & Hj & E) | (j & Hj & Hlo & Hhi & E)].
    - rewrite Hlen' in Hj. destruct (Hnth j Hj) as [H0 H1].
      eexists. split; [exact E|].
      change (2 ^ (-51)) with (1 # 2251799813685248).
      change (2 ^ (-50)) with (1 # 1125899906842624).
      split; [lra|]. split; [lra|]. intro Hneg. exfalso. lra.
    - rewrite Hlen' in Hj.
      destruct (Hnth j ltac:(lia)) as [H0 H1].
      destruct (Hnth (S j) Hj) as [H0' H1'].
      destruct (Hspace j Hj ltac:(lra)) as [Hs1 Hs2].
      destruct (segment_bounds start_rh (nth j (rh_of series) 0)
                  (nth (S j) (rh_of series) 0)
                  (nth j (loading_of series) 0) (nth (S j) (loading_of series) 0) L)
        as (b & Eb & Hb1 & Hb2); try assumption.
      exists b. rewrite E, Eb. split; [reflexivity|]. split; [exact Hb1|].
      split; [exact Hb2|]. intros _. exists j. auto. }
  destruct Hb as (b & Eb & Hb1 & Hb2 & Hneg).
  pose proof pow1022_large as Hbig.
  exists b. split; [exact Eb|]. split; [exact Hb1|]. split; [exact Hb2|].
  split; [exact Hneg|].
  revert Hb1 Hb2 HL.
  change (2 ^ (-51)) with (1 # 2251799813685248).
  change (2 ^ (-50)) with (1 # 1125899906842624).
  change (2 ^ 49) with 562949953421312.
  intros. repeat split; lra.
Qed.

(** Hypotheses on concrete data, by evaluation. *)
Ltac moderate_by_evaluation :=
  split; [|split];
  [ intros p Hp; hnf in Hp;
    repeat (destruct Hp as [<- | Hp]; [split; vm_compute; discriminate | hnf in Hp]);
    destruct Hp
  | vm_compute; discriminate
  | intros j Hj _;
    repeat (destruct j as [|j]; [split; vm_compute; discriminate|]);
    vm_compute in Hj; lia ].

(** *** The claims on the arithmetic of lines 68 to 72 *)

(** C3. Formula equivalence, up to rounding.  For moderate data (loadings
    in [[0, L]], [L] at most [2^49]; neighbouring RH values that differ at
    least [2^-50] and at most [2^50] apart), every [start_rh] and every
    point [p] of the series: the baseline is a finite number, the value
    line 72 computes for [p] and the value of
    [(p.loading - baseline_q) / (1.0 + baseline_q)] are finite numbers, and
    the two differ by at most [2^-49 * (2 + p.loading + baseline_q)]. *)
Theorem formula_equivalence_up_to_rounding
  (series : IsothermSeries) (start_rh L : Q) (p : Q * Q) :
  series <> [] ->
  moderate L series ->
  In p series ->
  exists b a a',
    Binary64.compute_baseline series start_rh = inr (finite b) /\
    Binary64.adjusted_uptake (finite b) (snd p) = finite a /\
    Binary64.adjusted_uptake_spec (finite b) (snd p) = finite a' /\
    Qabs (a - a') <= 2 ^ (-49) * (2 + snd p + b).
Proof.
  intros Hne Hmod Hp.
  destruct (baseline_of_moderate_data series start_rh L Hne Hmod)
    as (b & Eb & _ & _ & _ & Hb1 & Hb2 & _ & HL).
  destruct Hmod as (Hload & _ & _). destruct (Hload p Hp) as [Hp0 Hp1].
  destruct (two_forms_close b (snd p) Hb1 Hb2 Hp0) as (a & a' & Ea & Ea' & Hclose); [lra|].
  exists b, a, a'. auto.
Qed.

(** The six-point example started at 50, at its first point. *)
Lemma formula_equivalence_up_to_rounding_witness :
  exists b a a',
    Binary64.compute_baseline example_series_6_binary64 50 = inr (finite b) /\
    Binary64.adjusted_uptake (finite b) (dec 0.05) = finite a /\
    Binary64.adjusted_uptake_spec (finite b) (dec 0.05) = finite a' /\
    Qabs (a - a') <= 2 ^ (-49) * (2 + dec 0.05 + b).
Proof.
  apply (formula_equivalence_up_to_rounding example_series_6_binary64 50 1
           (0, dec 0.05)).
  - discriminate.
  - moderate_by_evaluation.
  - hnf. left. reflexivity.
Defined.

(** C3, as claimed: the two forms are not equal as the script computes
    them.  For the six-point example started at 40 the baseline is 0.18,
    and at the point with loading 0.05 line 72 gives -0.11016949152542364
    where the other form gives -0.11016949152542374. *)
Lemma formula_equivalence_fails_in_binary64 :
  Binary64.compute_baseline example_series_6_binary64 40 = inr (finite (dec 0.18)) /\
  Binary64.adjusted_uptake (finite (dec 0.18)) (dec 0.05)
  = finite (dec (-0.11016949152542364)) /\
  Binary64.adjusted_uptake_spec (finite (dec 0.18)) (dec 0.05)
  = finite (dec (-0.11016949152542374)) /\
  dec (-0.11016949152542374) < dec (-0.11016949152542364).
Proof.
  split; [vm_compute; reflexivity|]. split; [vm_compute; reflexivity|].
  split; vm_compute; reflexivity.
Qed.

(** C4. Division safety, for moderate data.  For every non-empty series
    of moderate data and every [start_rh], the interpolated baseline is a
    finite number within a rounding error of [[0, L]]: at least
    [-2^-51 * (1 + L)] and at most [L + 2^-50 * (1 + L)]; it is negative
    only when [start_rh] lies strictly between two neighbouring RH values.
    So [1.0 + baseline_q] is at least one half, never zero, and every
    adjusted uptake is a finite number. *)
Theorem division_safety_moderate_data
  (series : IsothermSeries) (start_rh L : Q) :
  series <> [] ->
  moderate L series ->
  exists b m,
    Binary64.compute_baseline series start_rh = inr (finite b) /\
    - (2 ^ (-51) * (1 + L)) <= b /\ b <= L + 2 ^ (-50) * (1 + L) /\
    (b < 0 -> exists j, (S j < length series)%nat /\
                        nth j (rh_of series) 0 < start_rh /\
                        start_rh < nth (S j) (rh_of series) 0) /\
    Binary64.initial_total_mass (finite b) = finite m /\
    1 # 2 <= m /\
    forall p, In p series ->
              exists a, Binary64.adjusted_uptake (finite b) (snd p) = finite a.
Proof.
  intros Hne Hmod.
  destruct (baseline_of_moderate_data series start_rh L Hne Hmod)
    as (b & Eb & Hb1 & Hb2 & Hneg & Hb1' & Hb2' & HL0 & HL).
  destruct Hmod as (Hload & _ & _).
  destruct (adjusted_uptake_steps b 0 Hb1' Hb2') as (Hm & _ & _ & _ & _ & _ & Em & _);
    [lra | lra |].
  exists b, (round64 (1 + b)).
  split; [exact Eb|]. split; [exact Hb1|]. split; [exact Hb2|]. split; [exact Hneg|].
  split; [exact Em|]. split; [exact Hm|].
  intros p Hp. destruct (Hload p Hp) as [Hp0 Hp1].
  destruct (adjusted_uptake_steps b (snd p) Hb1' Hb2' Hp0)
    as (_ & _ & _ & _ & _ & _ & _ & Ea); [lra|].
  eexists. exact Ea.
Qed.

(** The six-point example, started between two points. *)
Lemma division_safety_moderate_data_witness :
  exists b m,
    Binary64.compute_baseline example_series_6_binary64 50 = inr (finite b) /\
    - (2 ^ (-51) * (1 + 1)) <= b /\ b <= 1 + 2 ^ (-50) * (1 + 1) /\
    (b < 0 -> exists j, (S j < length example_series_6_binary64)%nat /\
                        nth j (rh_of example_series_6_binary64) 0 < 50 /\
                        50 < nth (S j) (rh_of example_series_6_binary64) 0) /\
    Binary64.initial_total_mass (finite b) = finite m /\
    1 # 2 <= m /\
    forall p, In p example_series_6_binary64 ->
              exists a, Binary64.adjusted_uptake (finite b) (snd p) = finite a.
Proof.
  apply (division_safety_moderate_data example_series_6_binary64 50 1).
  - discriminate.
  - moderate_by_evaluation.
Defined.

(** C4, as claimed: with non-negative loadings the baseline can be
    negative, and [1.0 + baseline_q] can be zero.  Between the points
    (5.8, 1.97) and (15.8, 0), at 15.799999999999999, [np.interp] returns
    [-2^-52].  With the first loading 8552941522103690 between RH 13.8 and
    55.4, at 55.39999999999999, it returns exactly -1: the initial total
    mass is 0 and the adjusted uptakes are infinite.  With two RH values
    [2^-1074] apart the slope overflows: the baseline is minus infinity
    and the adjusted uptakes are nan. *)
Lemma division_safety_fails_in_binary64 :
  (forall p, In p falling_pair -> 0 <= snd p) /\
  Binary64.compute_baseline falling_pair (dec 15.799999999999999)
  = inr (finite (dec (- 2 ^ (-52)))) /\
  dec (- 2 ^ (-52)) < 0 /\
  (forall p, In p heavy_pair -> 0 <= snd p) /\
  Binary64.compute_baseline heavy_pair (dec 55.39999999999999)
  = inr (finite (dec (-1))) /\
  dec (-1) == -1 /\
  Binary64.initial_total_mass (finite (dec (-1))) = finite 0 /\
  Binary64.adjusted_uptake (finite (dec (-1))) 8552941522103690 = inf false /\
  Binary64.adjusted_uptake (finite (dec (-1))) 0 = inf false /\
  (forall p, In p close_pair -> 0 <= snd p) /\
  Binary64.compute_baseline close_pair (2 * 2 ^ (-1074)) = inr (inf true) /\
  Binary64.initial_total_mass (inf true) = inf true /\
  Binary64.adjusted_uptake (inf true) 5 = nan.
Proof.
  repeat split;
    try (intros p Hp; hnf in Hp;
         repeat (destruct Hp as [<- | Hp]; [vm_compute; discriminate | hnf in Hp]);
         destruct Hp);
    vm_compute; reflexivity.
Qed.




End InBinary64.

(** ** Series with a single point *)

Lemma compute_baseline_single (rh0 q0 start_rh : Q) :
  compute_baseline [(rh0, q0)] start_rh = inr q0.
Proof.
  unfold compute_baseline, Numpy.interp. simpl.
  destruct (Num.ltb start_rh rh0); [reflexivity|].
  destruct (Num.gtb start_rh rh0); reflexivity.
Qed.

Lemma adjusted_uptake_at_baseline (q : Q) :
  ~ 1 + q == 0 ->
  exists a, adjusted_uptake q q = Some a /\ a == 0.
Proof.
  intro Hnz. eexists. split; [apply adjusted_uptake_defined, Hnz|].
  field. exact Hnz.
Qed.

(** C10. Single-point series.  For the series of one point [(rh0, q0)],
    with [q0] other than [-1] (so for every loading of the data model,
    which are non-negative), and for every [start_rh], inside or outside the
    data range: the baseline is [q0] and the adjusted series is the single
    point [(rh0, 0)]. *)
Theorem single_point_series (rh0 q0 start_rh : Q) :
  ~ q0 == -1 ->
  compute_baseline [(rh0, q0)] start_rh = inr q0 /\
  exists a,
    compute_adjusted_series [(rh0, q0)] start_rh = inr [(rh0, Some a)] /\
    a == 0.
Proof.
  intro Hq.
  assert (Hnz : ~ 1 + q0 == 0) by (intro E; apply Hq; lra).
  split; [apply compute_baseline_single|].
  destruct (adjusted_uptake_at_baseline q0 Hnz) as (a & Ha & Ha0).
  exists a. split; [|exact Ha0].
  unfold compute_adjusted_series. rewrite compute_baseline_single.
  simpl. now rewrite Ha.
Qed.

(** A single point, with a starting RH far above it. *)
Lemma single_point_series_witness :
  compute_baseline [(35, 0.25)] 90 = inr 0.25 /\
  exists a,
    compute_adjusted_series [(35, 0.25)] 90 = inr [(35, Some a)] /\
    a == 0.
Proof.
  apply (single_point_series 35 0.25 90).
  intro E. discriminate E.
Defined.

(** ** The examples of the specification *)

Definition example_series_3 : IsothermSeries :=
  [(0, 0.10); (50, 0.30); (100, 0.60)].

Definition example_series_6 : IsothermSeries :=
  [(0, 0.05); (20, 0.10); (40, 0.18); (60, 0.30); (80, 0.50); (100, 0.80)].

(** C6. Interpolation correctness.  For the series
    [(0, 0.10), (50, 0.30), (100, 0.60)] and [start_rh = 25] the baseline is
    0.20, the midpoint between 0.10 and 0.30. *)
Theorem interpolation_example :
  returns (compute_baseline example_series_3 25) 0.20 /\
  0.20 == (0.10 + 0.30) / 2.
Proof. split; vm_compute; reflexivity. Qed.

(** C5, as the script computes it.  For the six-point series and
    [start_rh = 40]: the baseline is 0.18, the initial total mass 1.18, the
    adjusted uptake at RH 100 is 0.62 / 1.18 = 31/59, which is 0.5254237288
    to ten places, and the adjusted uptake at RH 0 is -0.13 / 1.18 =
    -13/118, which is -0.11016949 to eight places. *)
Theorem end_to_end_example :
  compute_baseline example_series_6 40 = inr 0.18 /\
  initial_total_mass 0.18 == 1.18 /\
  exists col a0 a100,
    compute_adjusted_series example_series_6 40 = inr col /\
    nth_error col 5 = Some (100, Some a100) /\
    a100 == (1 + 0.80 - 1.18) / 1.18 /\
    a100 == 31 # 59 /\
    Qabs (a100 - 0.5254237288) <= 1 # 10000000000 /\
    nth_error col 0 = Some (0, Some a0) /\
    a0 == (1 + 0.05 - 1.18) / 1.18 /\
    Qabs (a0 - (-0.11016949)) <= 1 # 100000000.
Proof.
  split; [reflexivity|]. split; [reflexivity|].
  eexists. eexists. eexists.
  split; [vm_compute; reflexivity|].
  split; [reflexivity|]. split; [reflexivity|]. split; [reflexivity|].
  split; [vm_compute; discriminate|].
  split; [reflexivity|]. split; [reflexivity|].
  vm_compute; discriminate.
Qed.

(** C5, as claimed: the adjusted uptake at RH 100 is not 0.6203389830; it
    is 31/59 and differs from that value by more than 0.09. *)
Lemma end_to_end_example_claimed_value :
  exists col a100,
    compute_adjusted_series example_series_6 40 = inr col /\
    nth_error col 5 = Some (100, Some a100) /\
    a100 == (1 + 0.80 - 1.18) / 1.18 /\
    9 # 100 < Qabs (a100 - 0.6203389830).
Proof.
  eexists. eexists.
  split; [vm_compute; reflexivity|].
  split; [reflexivity|]. split; [reflexivity|].
  vm_compute; reflexivity.
Qed.

(** ** Zero crossing *)

Lemma ascending_tail (x : Q) (xs : list Q) :
  ascending (x :: xs) -> ascending xs.
Proof. destruct xs as [|y ys]; simpl; [trivial | intros [_ H]; exact H]. Qed.

Lemma ascending_head_le (x : Q) (xs : list Q) (j : nat) :
  ascending (x :: xs) -> (j < length xs)%nat -> x <= nth j xs 0.
Proof.
  revert x j. induction xs as [|y ys IH]; intros x j Ha Hj; simpl in Hj; [lia|].
  destruct Ha as [Hxy Ha]. destruct j as [|j]; simpl; [exact Hxy|].
  apply Qle_trans with y; [exact Hxy|]. apply IH; [exact Ha | lia].
Qed.

Lemma ascending_nth_le (xs : list Q) (i j : nat) :
  ascending xs -> (i <= j)%nat -> (j < length xs)%nat ->
  nth i xs 0 <= nth j xs 0.
Proof.
  revert i j. induction xs as [|x xs IH]; intros i j Ha Hij Hj; simpl in Hj; [lia|].
  destruct i as [|i], j as [|j]; simpl; try lia.
  - apply Qle_refl.
  - apply ascending_head_le; [exact Ha | lia].
  - apply IH; [eapply ascending_tail; exact Ha | lia | lia].
Qed.

Lemma nth_rh_of (series : IsothermSeries) (k : nat) (p : Q * Q) :
  nth_error series k = Some p -> nth k (rh_of series) 0 = fst p.
Proof.
  intro H. unfold rh_of. change 0 with (fst (0, 0)).
  rewrite map_nth. f_equal. apply nth_error_nth, H.
Qed.

Lemma nth_loading_of (series : IsothermSeries) (k : nat) (p : Q * Q) :
  nth_error series k = Some p -> nth k (loading_of series) 0 = snd p.
Proof.
  intro H. unfold loading_of. change 0 with (snd (0, 0)).
  rewrite map_nth. f_equal. apply nth_error_nth, H.
Qed.

Lemma nth_error_in_range (series : IsothermSeries) (k : nat) (p : Q * Q) :
  nth_error series k = Some p -> (k < length (rh_of series))%nat.
Proof.
  intro H. unfold rh_of. rewrite length_map.
  apply nth_error_Some. congruence.
Qed.

(** The baseline at a data point: in an ascending series, at the RH of a
    point that no later point repeats, [np.interp] returns that point's
    loading. *)
Lemma compute_baseline_at_point
  (series : IsothermSeries) (start_rh : Q) (k : nat) (rh q : Q) :
  ascending (rh_of series) ->
  nth_error series k = Some (rh, q) ->
  rh == start_rh ->
  (forall m p, (k < m)%nat -> nth_error series m = Some p -> ~ fst p == start_rh) ->
  compute_baseline series start_rh = inr q.
Proof.
  intros Hasc Hk Hrh Hlast.
  assert (Hne : series <> []) by (intro E; subst; destruct k; discriminate).
  destruct (compute_baseline_spec series start_rh Hne) as (b & Hb & Hr).
  rewrite Hb. f_equal.
  pose proof (nth_rh_of series k _ Hk) as Hxk. simpl in Hxk.
  pose proof (nth_loading_of series k _ Hk) as Hfk. simpl in Hfk.
  pose proof (nth_error_in_range series k _ Hk) as Hklen.
  set (xp := rh_of series) in *.
  assert (Hxs : nth k xp 0 == start_rh) by (rewrite Hxk; exact Hrh).
  assert (Hup : forall m, (m <= k)%nat -> nth m xp 0 <= start_rh).
  { intros m Hm. rewrite <- Hxs. apply ascending_nth_le; assumption. }
  assert (Hdown : forall m, (k <= m)%nat -> (m < length xp)%nat ->
                            start_rh <= nth m xp 0).
  { intros m Hm Hlen. rewrite <- Hxs. apply ascending_nth_le; assumption. }
  destruct Hr as [Hl | Hrgt | j Hj He Hn | j Hj Hlo Hhi].
  - exfalso. apply (Qlt_irrefl start_rh).
    eapply Qlt_le_trans; [exact Hl|]. apply Hup. lia.
  - exfalso. apply (Qlt_irrefl start_rh).
    eapply Qle_lt_trans; [|exact Hrgt]. apply Hdown; lia.
  - destruct (Nat.lt_trichotomy j k) as [Hjk | [Hjk | Hjk]].
    + exfalso. apply (Qlt_irrefl start_rh).
      eapply Qlt_le_trans; [apply Hn; lia|]. apply Hup. lia.
    + subst j. exact Hfk.
    + exfalso.
      assert (Hj' : (j < length series)%nat)
        by (unfold xp, rh_of in Hj; now rewrite length_map in Hj).
      destruct (nth_error series j) as [p|] eqn:Ep.
      * apply (Hlast j p Hjk Ep). rewrite <- (nth_rh_of series j p Ep). exact He.
      * apply nth_error_None in Ep. lia.
  - exfalso. apply (Qlt_irrefl start_rh).
    destruct (Nat.le_gt_cases k j) as [Hkj | Hjk].
    + eapply Qle_lt_trans; [|exact Hlo]. apply Hdown; lia.
    + eapply Qlt_le_trans; [exact Hhi|]. apply Hup. lia.
Qed.

(** C1, as the script computes it.  For every ascending series and every
    [start_rh] that is the RH of a data point: at that point (at the last
    such point, when the RH is repeated) whose loading is not [-1] (so at
    every non-negative loading), the baseline is the point's loading and the
    adjusted uptake is exactly 0. *)
Theorem zero_crossing
  (series : IsothermSeries) (start_rh : Q) (k : nat) (rh q : Q) :
  ascending (rh_of series) ->
  nth_error series k = Some (rh, q) ->
  rh == start_rh ->
  (forall m p, (k < m)%nat -> nth_error series m = Some p -> ~ fst p == start_rh) ->
  ~ q == -1 ->
  compute_baseline series start_rh = inr q /\
  exists col a,
    compute_adjusted_series series start_rh = inr col /\
    nth_error col k = Some (rh, Some a) /\
    a == 0.
Proof.
  intros Hasc Hk Hrh Hlast Hq.
  assert (Hnz : ~ 1 + q == 0) by (intro E; apply Hq; lra).
  pose proof (compute_baseline_at_point series start_rh k rh q Hasc Hk Hrh Hlast) as Hb.
  split; [exact Hb|].
  destruct (adjusted_uptake_at_baseline q Hnz) as (a & Ha & Ha0).
  eexists. exists a. unfold compute_adjusted_series. rewrite Hb.
  split; [reflexivity|]. split; [|exact Ha0].
  rewrite (nth_error_adjusted series q k rh q Hk). now rewrite Ha.
Qed.

(** The six-point example, started at its third point. *)
Lemma zero_crossing_witness :
  compute_baseline example_series_6 40 = inr 0.18 /\
  exists col a,
    compute_adjusted_series example_series_6 40 = inr col /\
    nth_error col 2 = Some (40, Some a) /\
    a == 0.
Proof.
  apply (zero_crossing example_series_6 40 2 40 0.18).
  - simpl. repeat split; discriminate.
  - reflexivity.
  - reflexivity.
  - intros m p Hm Hp E.
    do 3 (destruct m as [|m]; [lia|]).
    do 3 (destruct m as [|m]; [injection Hp as <-; discriminate E|]).
    destruct m; discriminate Hp.
  - intro E. discriminate E.
Defined.

(** C1, as claimed: with a repeated RH the adjusted uptake is not 0 at
    every point whose RH equals [start_rh].  In the ascending series
    [(10, 0.1), (10, 0.2), (20, 0.3)] with [start_rh = 10] the baseline is
    0.2, and the first point, whose RH is 10, gets -1/12. *)
Lemma zero_crossing_repeated_rh :
  ascending (rh_of [(10, 0.1); (10, 0.2); (20, 0.3)]) /\
  compute_baseline [(10, 0.1); (10, 0.2); (20, 0.3)] 10 = inr 0.2 /\
  exists col a,
    compute_adjusted_series [(10, 0.1); (10, 0.2); (20, 0.3)] 10 = inr col /\
    nth_error col 0 = Some (10, Some a) /\
    a == - (1 # 12) /\
    ~ a == 0.
Proof.
  split; [simpl; repeat split; discriminate|].
  split; [reflexivity|].
  eexists. eexists.
  split; [vm_compute; reflexivity|].
  split; [reflexivity|]. split; [reflexivity|].
  intro E. discriminate E.
Qed.

(** ** The cleaning *)

Section Cleaning.
Import Pandas.

Lemma positions_from_absent (label : string) (cols : list string) (i : nat) :
  ~ In label cols -> positions_from label cols i = [].
Proof.
  revert i. induction cols as [|c cols IH]; intros i Hn; simpl; [reflexivity|].
  destruct (String.eqb c label) eqn:E.
  - apply String.eqb_eq in E. exfalso. apply Hn. now left.
  - apply IH. intro H. apply Hn. now right.
Qed.

(** In a header without repeats a label names one column. *)
Lemma positions_from_unique (label : string) (cols : list string) (i : nat) :
  NoDup cols -> In label cols ->
  exists k, positions_from label cols i = [(i + k)%nat] /\
            nth_error cols k = Some label.
Proof.
  revert i. induction cols as [|c cols IH]; intros i Hnd Hin; [destruct Hin|].
  inversion Hnd as [|? ? Hc Hnd']; subst. simpl.
  destruct (String.eqb c label) eqn:E.
  - apply String.eqb_eq in E. subst c. exists 0%nat.
    rewrite (positions_from_absent label cols (S i) Hc).
    split; [f_equal; lia | reflexivity].
  - apply String.eqb_neq in E.
    destruct Hin as [Heq | Hin]; [congruence|].
    destruct (IH (S i) Hnd' Hin) as (k & Hk & Hnth).
    exists (S k). split; [rewrite Hk; f_equal; lia | exact Hnth].
Qed.

Lemma numbers_length (row : list (option Q)) (qs : list Q) :
  numbers row = Some qs -> length qs = length row.
Proof.
  revert qs. induction row as [|[q|] row IH]; intros qs H; simpl in H.
  - now injection H as <-.
  - destruct (numbers row) as [qs'|]; [|discriminate].
    injection H as <-. simpl. f_equal. now apply IH.
  - discriminate.
Qed.

Lemma insert_row_width (n i : nat) (row : list Q) (sorted : list (list Q)) :
  length row = n ->
  Forall (fun r => length r = n) sorted ->
  Forall (fun r => length r = n) (insert_row i row sorted).
Proof.
  intros Hrow Hs. induction Hs as [|r sorted Hr Hs IH]; simpl.
  - constructor; [exact Hrow | constructor].
  - destruct (Qle_bool (nth i row 0) (nth i r 0)).
    + constructor; [exact Hrow|]. constructor; assumption.
    + constructor; assumption.
Qed.

Lemma insert_row_nonempty (i : nat) (row : list Q) (sorted : list (list Q)) :
  insert_row i row sorted <> [].
Proof.
  destruct sorted as [|r sorted]; simpl; [discriminate|].
  destruct (Qle_bool (nth i row 0) (nth i r 0)); discriminate.
Qed.

Lemma take_pair {A} (i j : nat) (row : list A) (ci cj : A) :
  nth_error row i = Some ci -> nth_error row j = Some cj ->
  take [i; j] row = [ci; cj].
Proof. intros Hi Hj. unfold take. simpl. now rewrite Hi, Hj. Qed.

Lemma take_pair_width {A} (i j : nat) (row : list A) :
  (i < length row)%nat -> (j < length row)%nat ->
  length (take [i; j] row) = 2%nat.
Proof.
  intros Hi Hj.
  destruct (nth_error row i) as [ci|] eqn:Ei; [|apply nth_error_None in Ei; lia].
  destruct (nth_error row j) as [cj|] eqn:Ej; [|apply nth_error_None in Ej; lia].
  now rewrite (take_pair i j row ci cj Ei Ej).
Qed.

Lemma sorted_rows_width (n i : nat) (rows : list (list Q)) :
  Forall (fun r => length r = n) rows ->
  Forall (fun r => length r = n) (fold_right (insert_row i) [] rows).
Proof.
  intro H. induction H as [|row rows Hrow Hrows IH]; simpl; [constructor|].
  apply insert_row_width; assumption.
Qed.

(** Every cleaned row holds two numbers. *)
Lemma cleaned_rows_width (i j : nat) (raw : list (list cell)) (n : nat) :
  (i < n)%nat -> (j < n)%nat ->
  Forall (fun row => length row = n) raw ->
  Forall (fun row => length row = 2%nat) (cleaned_rows i j raw).
Proof.
  intros Hi Hj Hraw. unfold cleaned_rows.
  apply sorted_rows_width. apply Forall_forall. intros qs Hqs.
  apply in_flat_map in Hqs. destruct Hqs as (row & Hrow & Hqs).
  destruct (numbers row) as [qs'|] eqn:En; [|destruct Hqs].
  destruct Hqs as [<- | []].
  rewrite (numbers_length _ _ En).
  apply in_map_iff in Hrow. destruct Hrow as (cells & <- & Hcells).
  rewrite length_map.
  apply filter_In in Hcells. destruct Hcells as [Hcells _].
  apply in_map_iff in Hcells. destruct Hcells as (r & <- & Hr).
  rewrite Forall_forall in Hraw. specialize (Hraw r Hr).
  apply take_pair_width; lia.
Qed.

Lemma insert_row_ascending (row : list Q) (sorted : list (list Q)) :
  ascending (map (fun r => nth 0 r 0) sorted) ->
  ascending (map (fun r => nth 0 r 0) (insert_row 0 row sorted)).
Proof.
  induction sorted as [|r sorted IH]; intro Hs; [exact I|].
  cbn [insert_row].
  destruct (Qle_bool (nth 0 row 0) (nth 0 r 0)) eqn:E.
  - apply Qle_bool_iff in E. split; [exact E | exact Hs].
  - assert (Hlt : nth 0 r 0 <= nth 0 row 0).
    { apply Qlt_le_weak, Qnot_le_lt. intro H. apply Qle_bool_iff in H. congruence. }
    specialize (IH (ascending_tail _ _ Hs)).
    destruct sorted as [|r' sorted'].
    + split; [exact Hlt | exact I].
    + cbn [insert_row] in *.
      destruct (Qle_bool (nth 0 row 0) (nth 0 r' 0)).
      * split; [exact Hlt | exact IH].
      * split; [exact (proj1 Hs) | exact IH].
Qed.

(** The cleaned rows are in ascending RH order. *)
Lemma cleaned_rows_ascending (i j : nat) (raw : list (list cell)) :
  ascending (map (fun r => nth 0 r 0) (cleaned_rows i j raw)).
Proof.
  unfold cleaned_rows.
  match goal with |- context [fold_right _ _ ?l] => generalize l end.
  intro sel. induction sel as [|row sel IH].
  - exact I.
  - cbn [fold_right]. apply insert_row_ascending, IH.
Qed.

(** What [clean] returns on a table as [pd.read_csv] builds it, for two
    different labels of its header. *)
Lemma clean_spec (df_raw : DataFrame cell) (rh_col q_col : string) :
  rectangular df_raw ->
  In rh_col (columns df_raw) -> In q_col (columns df_raw) ->
  rh_col <> q_col ->
  exists i j,
    nth_error (columns df_raw) i = Some rh_col /\
    nth_error (columns df_raw) j = Some q_col /\
    clean df_raw rh_col q_col =
    inr {| columns := [rh_col; q_col];
           rows := cleaned_rows i j (rows df_raw) |}.
Proof.
  intros [Hnd Hrect] Hrh Hq Hneq.
  destruct (positions_from_unique rh_col (columns df_raw) 0 Hnd Hrh) as (i & Hpi & Hi).
  destruct (positions_from_unique q_col (columns df_raw) 0 Hnd Hq) as (j & Hpj & Hj).
  simpl in Hpi, Hpj.
  exists i, j. split; [exact Hi|]. split; [exact Hj|].
  unfold clean, getitem_list, positions.
  cbn [find]. rewrite Hpi, Hpj.
  cbn [length Nat.eqb flat_map app columns rows].
  rewrite Hpi, Hpj. cbn [app].
  rewrite (take_pair i j (columns df_raw) rh_col q_col Hi Hj).
  unfold sort_values, positions, dropna_numeric, apply_to_numeric, dropna.
  cbn [columns rows positions_from].
  rewrite String.eqb_refl.
  assert (E : String.eqb q_col rh_col = false)
    by (apply String.eqb_neq; congruence).
  rewrite E. reflexivity.
Qed.

End Cleaning.

(** ** The run of the script *)

Section Runs.
Import Pandas Streamlit Main.
Local Open Scope string_scope.

(** C8. Fail-fast on insufficient input.  When the uploaded table has fewer
    than two columns, or the cleaning of the columns chosen in the two
    select boxes leaves no row, the run ends in [st.stop()] right after an
    [st.error] message, and the page holds no slider, chart or download:
    steps 4 to 7, the computation among them, are never reached.  (The raw
    table, shown before the checks, is on the page.) *)
Theorem fail_fast (s : Session) (df_raw : DataFrame cell) :
  uploaded_file s = Some df_raw ->
  (length (columns df_raw) < 2)%nat \/
  (exists rh_col q_col iso,
      selectbox_value s "Column containing RH (%)" (columns df_raw) 0%nat = Some rh_col /\
      selectbox_value s "Column containing loading (g water / g salt)"
                      (columns df_raw) 1%nat = Some q_col /\
      clean df_raw rh_col q_col = inr iso /\
      rows iso = []) ->
  exists page msg,
    run s = (inl Stopped, (page ++ [error msg])%list) /\
    (msg = "CSV must contain at least two numeric columns (RH and loading)." \/
     msg = "Selected columns could not be converted to numeric values.") /\
    Forall (fun e => past_the_checks e = false) page /\
    In (dataframe df_raw) page.
Proof.
  intros Hup Hcase. unfold run, main. rewrite Hup.
  destruct (empty df_raw || (length (columns df_raw) <? 2)%nat) eqn:Eguard.
  - exists_page 6%nat. cbv [bind show stop ret]. simpl.
    split; [reflexivity|]. split; [now left|]. split.
    + repeat constructor.
    + simpl. tauto.
  - destruct Hcase as [Hfew | (rh_col & q_col & iso & Hrh & Hq & Hclean & Hrows)].
    + apply orb_false_iff in Eguard. destruct Eguard as [_ E].
      apply Nat.ltb_ge in E. lia.
    + assert (Hempty : empty iso = true).
      { unfold empty. rewrite Hrows. simpl. apply orb_true_r. }
      exists_page 8%nat. cbv [bind show stop ret widget lift].
      rewrite Hrh. cbv [bind show stop ret widget lift].
      rewrite Hq. cbv [bind show stop ret widget lift].
      rewrite Hclean. cbv [bind show stop ret widget lift].
      rewrite Hempty. simpl.
      split; [reflexivity|]. split; [now right|]. split.
      * repeat constructor.
      * simpl. tauto.
Qed.

(** An upload whose loading column holds no number. *)
Lemma fail_fast_witness :
  exists page msg,
    run (untouched (Some no_numbers)) = (inl Stopped, (page ++ [error msg])%list) /\
    (msg = "CSV must contain at least two numeric columns (RH and loading)." \/
     msg = "Selected columns could not be converted to numeric values.") /\
    Forall (fun e => past_the_checks e = false) page /\
    In (dataframe no_numbers) page.
Proof.
  apply (fail_fast (untouched (Some no_numbers)) no_numbers).
  - reflexivity.
  - right. exists "RH", "q". eexists.
    split; [reflexivity|]. split; [reflexivity|]. split; reflexivity.
Defined.

(** *** The download *)

Lemma two_labels (cols : list string) (a b : string) :
  In a cols -> In b cols -> a <> b -> (2 <= length cols)%nat.
Proof.
  intros Ha Hb Hab.
  destruct cols as [|c [|d cols]]; simpl in *; try lia.
  destruct Ha as [<- | []], Hb as [<- | []]. congruence.
Qed.

Lemma getitem_pair (a b : string) (rs : list (list Q)) :
  a <> b ->
  getitem {| columns := [a; b]; rows := rs |} a
  = inr (map (fun row => nth 0 row 0%Q) rs) /\
  getitem {| columns := [a; b]; rows := rs |} b
  = inr (map (fun row => nth 1 row 0%Q) rs).
Proof.
  intro Hab. unfold getitem, positions. cbn [columns rows positions_from].
  rewrite !String.eqb_refl.
  assert (E1 : String.eqb b a = false) by (apply String.eqb_neq; congruence).
  assert (E2 : String.eqb a b = false) by (apply String.eqb_neq; congruence).
  rewrite E1, E2. split; reflexivity.
Qed.


Lemma records_without_index (rs : list (list (option Q))) (n : nat) :
  map (fun ir => ((if false then [Index (fst ir)] else []) ++ map Entry (snd ir))%list)
      (combine (seq n (length rs)) rs)
  = map (map Entry) rs.
Proof.
  revert n. induction rs as [|r rs IH]; intro n; simpl; [reflexivity|].
  f_equal. apply IH.
Qed.

Lemma to_csv_without_index (df : DataFrame (option Q)) :
  to_csv false df = map Label (columns df) :: map (map Entry) (rows df).
Proof. unfold to_csv. simpl. now rewrite records_without_index. Qed.






End Runs.

(** * Further properties of the script *)

(** ** What the cleaning keeps (step 3) *)

Section CleaningKeeps.
Import Pandas.

Lemma insert_row_permutation (i : nat) (row : list Q) (sorted : list (list Q)) :
  Permutation (insert_row i row sorted) (row :: sorted).
Proof.
  induction sorted as [|r sorted IH]; cbn [insert_row]; [reflexivity|].
  destruct (Qle_bool (nth i row 0) (nth i r 0)); [reflexivity|].
  rewrite IH. apply perm_swap.
Qed.

Lemma sorted_rows_permutation (i : nat) (rows : list (list Q)) :
  Permutation (fold_right (insert_row i) [] rows) rows.
Proof.
  induction rows as [|row rows IH]; cbn [fold_right]; [reflexivity|].
  rewrite insert_row_permutation. now constructor.
Qed.

(** Before the sort, the chain of [dropna], [to_numeric] and [dropna] keeps
    exactly the rows whose two chosen cells are numbers. *)
Lemma unsorted_rows_kept (i j : nat) (raw : list (list cell)) (n : nat) :
  (i < n)%nat -> (j < n)%nat ->
  Forall (fun row => length row = n) raw ->
  flat_map (fun row => match numbers row with
                       | Some qs => [qs]
                       | None => []
                       end)
    (map (map to_numeric)
       (filter (fun row => forallb (fun c => negb (isna c)) row)
          (map (take [i; j]) raw)))
  = kept_rows i j raw.
Proof.
  intros Hi Hj Hraw. unfold kept_rows.
  induction Hraw as [|row raw Hrow Hraw IH]; [reflexivity|].
  cbn [map flat_map filter].
  destruct (nth_error row i) as [ci|] eqn:Ei; [|apply nth_error_None in Ei; lia].
  destruct (nth_error row j) as [cj|] eqn:Ej; [|apply nth_error_None in Ej; lia].
  rewrite (take_pair i j row ci cj Ei Ej).
  destruct ci as [a|s|], cj as [b|t|]; cbn; rewrite IH; reflexivity.
Qed.

Lemma cleaned_rows_permutation (i j : nat) (raw : list (list cell)) (n : nat) :
  (i < n)%nat -> (j < n)%nat ->
  Forall (fun row => length row = n) raw ->
  Permutation (cleaned_rows i j raw) (kept_rows i j raw).
Proof.
  intros Hi Hj Hraw. unfold cleaned_rows.
  rewrite (unsorted_rows_kept i j raw n Hi Hj Hraw).
  apply sorted_rows_permutation.
Qed.

(** X1. The cleaning of a table as [pd.read_csv] builds it, for two
    different labels of its header, raises nothing and returns a table with
    the two chosen labels, two numbers in every row, and the rows in
    ascending order of the first column. *)
Theorem clean_sorts (df_raw : DataFrame cell) (rh_col q_col : string) :
  rectangular df_raw ->
  In rh_col (columns df_raw) -> In q_col (columns df_raw) ->
  rh_col <> q_col ->
  exists iso,
    clean df_raw rh_col q_col = inr iso /\
    columns iso = [rh_col; q_col] /\
    Forall (fun row => length row = 2%nat) (rows iso) /\
    ascending (rh_of (series_of iso)).
Proof.
  intros Hrect Hrh Hq Hneq.
  destruct (clean_spec df_raw rh_col q_col Hrect Hrh Hq Hneq)
    as (i & j & Hi & Hj & Hclean).
  eexists. split; [exact Hclean|]. split; [reflexivity|]. split.
  - destruct Hrect as [_ Hrect]. cbn [rows].
    apply (cleaned_rows_width i j (rows df_raw) (length (columns df_raw)));
      [apply nth_error_Some; congruence | apply nth_error_Some; congruence | exact Hrect].
  - unfold rh_of, series_of. cbn [rows]. rewrite map_map. cbn [fst].
    apply cleaned_rows_ascending.
Qed.

(** The three-column upload, cleaned on RH and q. *)
Lemma clean_sorts_witness :
  exists iso,
    clean three_columns "RH" "q" = inr iso /\
    columns iso = ["RH"%string; "q"%string] /\
    Forall (fun row => length row = 2%nat) (rows iso) /\
    ascending (rh_of (series_of iso)).
Proof.
  apply (clean_sorts three_columns "RH" "q").
  - split; [|repeat constructor].
    repeat constructor; simpl; intuition discriminate.
  - simpl. tauto.
  - simpl. tauto.
  - discriminate.
Defined.

(** X2. The cleaning neither loses nor invents data: the rows of the cleaned
    table are, up to their order, exactly the rows of the upload whose two
    chosen cells are both numbers, cut down to these two numbers.  A row
    with an empty cell or with text in a chosen column is dropped, and
    nothing else is. *)
Theorem clean_keeps_the_numeric_rows
  (df_raw : DataFrame cell) (rh_col q_col : string) :
  rectangular df_raw ->
  In rh_col (columns df_raw) -> In q_col (columns df_raw) ->
  rh_col <> q_col ->
  exists i j iso,
    nth_error (columns df_raw) i = Some rh_col /\
    nth_error (columns df_raw) j = Some q_col /\
    clean df_raw rh_col q_col = inr iso /\
    Permutation (rows iso) (kept_rows i j (rows df_raw)) /\
    (length (rows iso) <= length (rows df_raw))%nat.
Proof.
  intros Hrect Hrh Hq Hneq.
  destruct (clean_spec df_raw rh_col q_col Hrect Hrh Hq Hneq)
    as (i & j & Hi & Hj & Hclean).
  exists i, j. eexists. split; [exact Hi|]. split; [exact Hj|].
  split; [exact Hclean|]. cbn [rows].
  assert (Hperm : Permutation (cleaned_rows i j (rows df_raw))
                              (kept_rows i j (rows df_raw))).
  { destruct Hrect as [_ Hrect].
    apply (cleaned_rows_permutation i j (rows df_raw) (length (columns df_raw)));
      [apply nth_error_Some; congruence | apply nth_error_Some; congruence | exact Hrect]. }
  split; [exact Hperm|].
  rewrite (Permutation_length Hperm). unfold kept_rows.
  clear. induction (rows df_raw) as [|row raw IH]; [apply Nat.le_refl|].
  cbn [flat_map]. rewrite length_app.
  destruct (nth_error row i) as [[a|s|]|]; simpl; try lia;
    destruct (nth_error row j) as [[b|t|]|]; simpl; lia.
Qed.

(** The three-column upload: three of its four rows are kept. *)
Lemma clean_keeps_the_numeric_rows_witness :
  exists i j iso,
    nth_error (columns three_columns) i = Some "RH"%string /\
    nth_error (columns three_columns) j = Some "q"%string /\
    clean three_columns "RH" "q" = inr iso /\
    Permutation (rows iso) (kept_rows i j (rows three_columns)) /\
    (length (rows iso) <= length (rows three_columns))%nat.
Proof.
  apply (clean_keeps_the_numeric_rows three_columns "RH" "q").
  - split; [|repeat constructor].
    repeat constructor; simpl; intuition discriminate.
  - simpl. tauto.
  - simpl. tauto.
  - discriminate.
Defined.

Lemma strictly_ascending_ascending (xs : list Q) :
  strictly_ascending xs -> ascending xs.
Proof.
  induction xs as [|x [|y rest] IH]; simpl; auto.
  intros [Hlt Hrest]. split; [apply Qlt_le_weak, Hlt | apply IH, Hrest].
Qed.

(** Rows already in ascending order of the key are left where they are. *)
Lemma sort_of_sorted (i : nat) (rs : list (list Q)) :
  ascending (map (fun row => nth i row 0) rs) ->
  fold_right (insert_row i) [] rs = rs.
Proof.
  induction rs as [|r [|r2 rest] IH]; intro Hasc; [reflexivity | reflexivity |].
  change (fold_right (insert_row i) [] (r :: r2 :: rest))
    with (insert_row i r (fold_right (insert_row i) [] (r2 :: rest))).
  destruct Hasc as [Hle Hrest]. rewrite (IH Hrest).
  cbn [insert_row]. apply Qle_bool_iff in Hle. rewrite Hle. reflexivity.
Qed.

(** X13. An upload already in order keeps its order: when the rows with a
    number in both chosen columns come in strictly ascending RH, the cleaned
    table holds exactly these rows, cut down to the two numbers, in the
    order of the upload. *)
Theorem sorted_upload_keeps_its_order
  (df_raw : DataFrame cell) (rh_col q_col : string) (i j : nat) :
  rectangular df_raw ->
  nth_error (columns df_raw) i = Some rh_col ->
  nth_error (columns df_raw) j = Some q_col ->
  rh_col <> q_col ->
  strictly_ascending (map (fun row => nth 0 row 0) (kept_rows i j (rows df_raw))) ->
  clean df_raw rh_col q_col =
  inr {| columns := [rh_col; q_col];
         rows := kept_rows i j (rows df_raw) |}.
Proof.
  intros Hrect Hi Hj Hneq Hasc.
  destruct (clean_spec df_raw rh_col q_col Hrect
              (nth_error_In _ _ Hi) (nth_error_In _ _ Hj) Hneq)
    as (i' & j' & Hi' & Hj' & Hclean).
  destruct Hrect as [Hnd Hrect].
  assert (Ei : i' = i).
  { apply (proj1 (NoDup_nth_error (columns df_raw)) Hnd);
      [apply nth_error_Some; congruence | congruence]. }
  assert (Ej : j' = j).
  { apply (proj1 (NoDup_nth_error (columns df_raw)) Hnd);
      [apply nth_error_Some; congruence | congruence]. }
  subst i' j'. rewrite Hclean. do 2 f_equal.
  unfold cleaned_rows.
  rewrite (unsorted_rows_kept i j (rows df_raw) (length (columns df_raw)));
    [| apply nth_error_Some; congruence | apply nth_error_Some; congruence | exact Hrect].
  apply sort_of_sorted, strictly_ascending_ascending, Hasc.
Qed.

(** The upload in order: the row with text in the loading column goes, the
    other three stay as they come. *)
Lemma sorted_upload_keeps_its_order_witness :
  clean sorted_upload "RH" "q" =
  inr {| columns := ["RH"%string; "q"%string];
         rows := [[0; 0.05]; [40; 0.18]; [100; 0.80]] |}.
Proof.
  apply (sorted_upload_keeps_its_order sorted_upload "RH" "q" 0 1).
  - split; [|repeat constructor].
    repeat constructor; simpl; intuition discriminate.
  - reflexivity.
  - reflexivity.
  - discriminate.
  - simpl. repeat split; reflexivity.
Defined.

(** The cleaning, with the places of the two chosen columns given. *)
Lemma clean_at (df_raw : DataFrame cell) (rh_col q_col : string) (i j : nat) :
  rectangular df_raw ->
  nth_error (columns df_raw) i = Some rh_col ->
  nth_error (columns df_raw) j = Some q_col ->
  rh_col <> q_col ->
  clean df_raw rh_col q_col =
  inr {| columns := [rh_col; q_col]; rows := cleaned_rows i j (rows df_raw) |} /\
  Permutation (cleaned_rows i j (rows df_raw)) (kept_rows i j (rows df_raw)).
Proof.
  intros Hrect Hi Hj Hneq.
  destruct (clean_spec df_raw rh_col q_col Hrect
              (nth_error_In _ _ Hi) (nth_error_In _ _ Hj) Hneq)
    as (i' & j' & Hi' & Hj' & Hclean).
  destruct Hrect as [Hnd Hrect].
  assert (Ei : i' = i).
  { apply (proj1 (NoDup_nth_error (columns df_raw)) Hnd);
      [apply nth_error_Some; congruence | congruence]. }
  assert (Ej : j' = j).
  { apply (proj1 (NoDup_nth_error (columns df_raw)) Hnd);
      [apply nth_error_Some; congruence | congruence]. }
  subst i' j'. split; [exact Hclean|].
  apply (cleaned_rows_permutation i j (rows df_raw) (length (columns df_raw)));
    [apply nth_error_Some; congruence | apply nth_error_Some; congruence | exact Hrect].
Qed.

End CleaningKeeps.

(** ** The paths of a run *)

Section Paths.
Import Pandas Streamlit Main.
Local Open Scope string_scope.

Ltac step := cbv [bind show stop ret widget lift raise].

(** Without an upload. *)
Lemma run_without_upload (s : Session) :
  uploaded_file s = None ->
  run s =
  (inl Stopped,
   [set_page_config "Isotherm Shifter" "💧"; title "Isotherm Shifter";
    write purpose; file_uploader "CSV file" ["csv"];
    info "Upload a CSV to get started. Expected columns: Relative Humidity (%) and water loading (g/g)."]).
Proof. intro Hup. unfold run, main. rewrite Hup. reflexivity. Qed.

(** The first check fails. *)
Lemma run_first_check (s : Session) (df_raw : DataFrame cell) :
  uploaded_file s = Some df_raw ->
  first_check df_raw = true ->
  run s =
  (inl Stopped,
   (page_to_raw_table df_raw ++
    [error "CSV must contain at least two numeric columns (RH and loading)."])%list).
Proof.
  intros Hup Hc. unfold run, main. rewrite Hup. step.
  unfold first_check in Hc. rewrite Hc. reflexivity.
Qed.

(** A select box raises. *)
Lemma run_first_selectbox_raises (s : Session) (df_raw : DataFrame cell) :
  uploaded_file s = Some df_raw ->
  first_check df_raw = false ->
  selectbox_value s "Column containing RH (%)" (columns df_raw) 0%nat = None ->
  fst (run s) = inl (Raised WidgetException).
Proof.
  intros Hup Hc Hrh. unfold run, main. rewrite Hup. step.
  unfold first_check in Hc. rewrite Hc. rewrite Hrh. reflexivity.
Qed.

Lemma run_second_selectbox_raises (s : Session) (df_raw : DataFrame cell) (rh_col : string) :
  uploaded_file s = Some df_raw ->
  first_check df_raw = false ->
  selectbox_value s "Column containing RH (%)" (columns df_raw) 0%nat = Some rh_col ->
  selectbox_value s "Column containing loading (g water / g salt)"
                  (columns df_raw) 1%nat = None ->
  fst (run s) = inl (Raised WidgetException).
Proof.
  intros Hup Hc Hrh Hq. unfold run, main. rewrite Hup. step.
  unfold first_check in Hc. rewrite Hc. rewrite Hrh. step. rewrite Hq. reflexivity.
Qed.

(** The cleaning raises. *)
Lemma run_clean_raises
  (s : Session) (df_raw : DataFrame cell) (rh_col q_col : string) (e : exception) :
  uploaded_file s = Some df_raw ->
  first_check df_raw = false ->
  selectbox_value s "Column containing RH (%)" (columns df_raw) 0%nat = Some rh_col ->
  selectbox_value s "Column containing loading (g water / g salt)"
                  (columns df_raw) 1%nat = Some q_col ->
  clean df_raw rh_col q_col = inl e ->
  run s = (inl (Raised e), page_to_selectboxes df_raw).
Proof.
  intros Hup Hc Hrh Hq Hclean. unfold run, main. rewrite Hup. step.
  unfold first_check in Hc. rewrite Hc. rewrite Hrh. step. rewrite Hq. step.
  rewrite Hclean. reflexivity.
Qed.

(** The cleaning leaves nothing. *)
Lemma run_second_check
  (s : Session) (df_raw : DataFrame cell) (rh_col q_col : string) (iso : DataFrame Q) :
  uploaded_file s = Some df_raw ->
  first_check df_raw = false ->
  selectbox_value s "Column containing RH (%)" (columns df_raw) 0%nat = Some rh_col ->
  selectbox_value s "Column containing loading (g water / g salt)"
                  (columns df_raw) 1%nat = Some q_col ->
  clean df_raw rh_col q_col = inr iso ->
  empty iso = true ->
  run s =
  (inl Stopped,
   (page_to_selectboxes df_raw ++
    [error "Selected columns could not be converted to numeric values."])%list).
Proof.
  intros Hup Hc Hrh Hq Hclean He. unfold run, main. rewrite Hup. step.
  unfold first_check in Hc. rewrite Hc. rewrite Hrh. step. rewrite Hq. step.
  rewrite Hclean. step. rewrite He. reflexivity.
Qed.

(** The run reaches the slider: what follows is the slider's answer and,
    with it, steps 5 to 7. *)
Lemma run_to_slider
  (s : Session) (df_raw : DataFrame cell) (rh_col q_col : string) (iso : DataFrame Q)
  (rh_values : list Q) :
  uploaded_file s = Some df_raw ->
  first_check df_raw = false ->
  selectbox_value s "Column containing RH (%)" (columns df_raw) 0%nat = Some rh_col ->
  selectbox_value s "Column containing loading (g water / g salt)"
                  (columns df_raw) 1%nat = Some q_col ->
  clean df_raw rh_col q_col = inr iso ->
  empty iso = false ->
  getitem iso rh_col = inr rh_values ->
  run s =
  match slider_value s "Starting RH (%)" (series_min rh_values) (series_max rh_values)
                     (series_min rh_values) 1 with
  | None =>
      (inl (Raised WidgetException),
       (page_to_selectboxes df_raw ++
        [slider "Starting RH (%)" (series_min rh_values) (series_max rh_values)
                (series_min rh_values) 1])%list)
  | Some start_rh =>
      compute_and_show iso rh_col q_col start_rh
        (page_to_selectboxes df_raw ++
         [slider "Starting RH (%)" (series_min rh_values) (series_max rh_values)
                 (series_min rh_values) 1])%list
  end.
Proof.
  intros Hup Hc Hrh Hq Hclean He Hg. unfold run, main. rewrite Hup. step.
  unfold first_check in Hc. rewrite Hc. rewrite Hrh. step. rewrite Hq. step.
  rewrite Hclean. step. rewrite He, Hg.
  destruct (slider_value s "Starting RH (%)" (series_min rh_values)
              (series_max rh_values) (series_min rh_values) 1); reflexivity.
Qed.

(** Reading the RH column raises (it cannot after a cleaning that went
    through, but the script does not know). *)
Lemma run_getitem_raises
  (s : Session) (df_raw : DataFrame cell) (rh_col q_col : string) (iso : DataFrame Q)
  (e : exception) :
  uploaded_file s = Some df_raw ->
  first_check df_raw = false ->
  selectbox_value s "Column containing RH (%)" (columns df_raw) 0%nat = Some rh_col ->
  selectbox_value s "Column containing loading (g water / g salt)"
                  (columns df_raw) 1%nat = Some q_col ->
  clean df_raw rh_col q_col = inr iso ->
  empty iso = false ->
  getitem iso rh_col = inl e ->
  run s = (inl (Raised e), page_to_selectboxes df_raw).
Proof.
  intros Hup Hc Hrh Hq Hclean He Hg. unfold run, main. rewrite Hup. step.
  unfold first_check in Hc. rewrite Hc. rewrite Hrh. step. rewrite Hq. step.
  rewrite Hclean. step. rewrite He, Hg. reflexivity.
Qed.

(** Steps 5 to 7 when the two columns are read and the interpolation
    returns: the chart and the download are added to the page, both made
    from the cleaned table with the new column. *)
Lemma compute_and_show_spec
  (iso : DataFrame Q) (rh_col q_col : string) (start_rh : Q) (page : list element)
  (rh_values q_values : list Q) (baseline_q : Q) :
  getitem iso rh_col = inr rh_values ->
  getitem iso q_col = inr q_values ->
  Numpy.interp start_rh rh_values q_values = inr baseline_q ->
  exists fig,
    data_frame fig = setitem (as_float iso) adjusted_label
                             (adjusted_column baseline_q q_values) /\
    x fig = rh_col /\ y fig = adjusted_label /\ title_start_rh fig = start_rh /\
    compute_and_show iso rh_col q_col start_rh page =
    (inr tt,
     (page ++
      [plotly_chart fig true;
       download_button "Download adjusted isotherm as CSV"
         (to_csv false (setitem (as_float iso) adjusted_label
                                (adjusted_column baseline_q q_values)))
         "adjusted_isotherm.csv" "text/csv"])%list).
Proof.
  intros Hrh Hq Hb. unfold compute_and_show. step.
  rewrite Hrh, Hq, Hb. eexists.
  split; [|split; [|split; [|split]]]; cycle 4.
  - rewrite <- app_assoc. reflexivity.
  - reflexivity.
  - reflexivity.
  - reflexivity.
  - reflexivity.
Qed.

(** Steps 5 to 7 never call [st.stop()], and only add to the page. *)
Lemma compute_and_show_goes_on
  (iso : DataFrame Q) (rh_col q_col : string) (start_rh : Q) (page : list element) :
  fst (compute_and_show iso rh_col q_col start_rh page) <> inl Stopped /\
  exists more,
    snd (compute_and_show iso rh_col q_col start_rh page) = (page ++ more)%list /\
    Forall (fun e => is_error e = false) more.
Proof.
  unfold compute_and_show. step.
  destruct (getitem iso rh_col) as [e|rh_values].
  { split; [discriminate|]. exists []. split; [now rewrite app_nil_r | constructor]. }
  destruct (getitem iso q_col) as [e|q_values].
  { split; [discriminate|]. exists []. split; [now rewrite app_nil_r | constructor]. }
  destruct (Numpy.interp start_rh rh_values q_values) as [e|b].
  { split; [discriminate|]. exists []. split; [now rewrite app_nil_r | constructor]. }
  split; [discriminate|]. eexists. split.
  - cbn [snd]. rewrite <- app_assoc. reflexivity.
  - repeat constructor.
Qed.

End Paths.

(** ** The ends of the slider (step 4) *)

Section SliderEnds.
Import Pandas.

Lemma Qmin_cases (x y : Q) : (Qmin x y = x /\ x <= y) \/ (Qmin x y = y /\ y <= x).
Proof.
  unfold Qmin, GenericMinMax.gmin. destruct (x ?= y) eqn:E.
  - left. split; [reflexivity|]. apply Qeq_alt in E. rewrite E. apply Qle_refl.
  - left. split; [reflexivity|]. apply Qlt_alt in E. apply Qlt_le_weak, E.
  - right. split; [reflexivity|]. apply Qgt_alt in E. apply Qlt_le_weak, E.
Qed.

Lemma Qmax_cases (x y : Q) : (Qmax x y = x /\ y <= x) \/ (Qmax x y = y /\ x <= y).
Proof.
  unfold Qmax, GenericMinMax.gmax. destruct (x ?= y) eqn:E.
  - left. split; [reflexivity|]. apply Qeq_alt in E. rewrite E. apply Qle_refl.
  - right. split; [reflexivity|]. apply Qlt_alt in E. apply Qlt_le_weak, E.
  - left. split; [reflexivity|]. apply Qgt_alt in E. apply Qlt_le_weak, E.
Qed.

Lemma fold_min_spec (rest : list Q) :
  forall x,
    In (fold_left Qmin rest x) (x :: rest) /\
    forall y, In y (x :: rest) -> fold_left Qmin rest x <= y.
Proof.
  induction rest as [|a rest IH]; intro x; cbn [fold_left].
  - split; [now left|]. intros y [<- | []]. apply Qle_refl.
  - destruct (IH (Qmin x a)) as [Hin Hle]. split.
    + destruct Hin as [Hin | Hin]; [|right; right; exact Hin].
      rewrite <- Hin.
      destruct (Qmin_cases x a) as [[-> _] | [-> _]]; [now left | right; now left].
    + assert (Hm : fold_left Qmin rest (Qmin x a) <= Qmin x a)
        by (apply Hle; now left).
      intros y [<- | [<- | Hy]].
      * eapply Qle_trans; [exact Hm|].
        destruct (Qmin_cases x a) as [[-> H] | [-> H]]; [apply Qle_refl | exact H].
      * eapply Qle_trans; [exact Hm|].
        destruct (Qmin_cases x a) as [[-> H] | [-> H]]; [exact H | apply Qle_refl].
      * apply Hle. right. exact Hy.
Qed.

Lemma fold_max_spec (rest : list Q) :
  forall x,
    In (fold_left Qmax rest x) (x :: rest) /\
    forall y, In y (x :: rest) -> y <= fold_left Qmax rest x.
Proof.
  induction rest as [|a rest IH]; intro x; cbn [fold_left].
  - split; [now left|]. intros y [<- | []]. apply Qle_refl.
  - destruct (IH (Qmax x a)) as [Hin Hle]. split.
    + destruct Hin as [Hin | Hin]; [|right; right; exact Hin].
      rewrite <- Hin.
      destruct (Qmax_cases x a) as [[-> _] | [-> _]]; [now left | right; now left].
    + assert (Hm : Qmax x a <= fold_left Qmax rest (Qmax x a))
        by (apply Hle; now left).
      intros y [<- | [<- | Hy]].
      * eapply Qle_trans; [|exact Hm].
        destruct (Qmax_cases x a) as [[-> H] | [-> H]]; [apply Qle_refl | exact H].
      * eapply Qle_trans; [|exact Hm].
        destruct (Qmax_cases x a) as [[-> H] | [-> H]]; [exact H | apply Qle_refl].
      * apply Hle. right. exact Hy.
Qed.

(** [series.min()] and [series.max()] of a non-empty column are values of
    the column and bound every value. *)
Lemma series_min_max_spec (xs : list Q) :
  xs <> [] ->
  In (series_min xs) xs /\ In (series_max xs) xs /\
  forall r, In r xs -> series_min xs <= r /\ r <= series_max xs.
Proof.
  destruct xs as [|x rest]; [congruence|]. intros _.
  unfold series_min, series_max.
  destruct (fold_min_spec rest x) as [Hmin Hle].
  destruct (fold_max_spec rest x) as [Hmax Hge].
  split; [exact Hmin|]. split; [exact Hmax|].
  intros r Hr. split; [apply Hle, Hr | apply Hge, Hr].
Qed.

End SliderEnds.

(** ** How a run ends *)

Section RunOutcomes.
Import Pandas Streamlit Main.
Local Open Scope string_scope.

Lemma first_check_true (df_raw : DataFrame cell) :
  first_check df_raw = true <->
  rows df_raw = [] \/ (length (columns df_raw) < 2)%nat.
Proof.
  unfold first_check, empty. rewrite !orb_true_iff, !Nat.eqb_eq, Nat.ltb_lt.
  split.
  - intros [[H | H] | H];
      [right; lia | left; now apply length_zero_iff_nil | right; exact H].
  - intros [H | H]; [left; right; now rewrite H | right; exact H].
Qed.

Lemma first_check_false (df_raw : DataFrame cell) :
  first_check df_raw = false <->
  rows df_raw <> [] /\ (2 <= length (columns df_raw))%nat.
Proof.
  destruct (first_check df_raw) eqn:E.
  - apply first_check_true in E. split; [discriminate|].
    intros [Hr Hc]. destruct E; [contradiction | lia].
  - split; [|reflexivity]. intros _. split.
    + intro H. assert (first_check df_raw = true) by (apply first_check_true; now left).
      congruence.
    + destruct (Nat.lt_ge_cases (length (columns df_raw)) 2) as [H|H]; [|exact H].
      assert (first_check df_raw = true) by (apply first_check_true; now right).
      congruence.
Qed.

(** X3. Without an upload the run shows the hint and stops: the page is
    the page configuration, the title, the purpose, the uploader and the
    hint, in this order and nothing else (no table, no select box, no
    slider, no chart, no download, no error), and the run ends in
    [st.stop()]. *)
Theorem no_upload_shows_the_hint (s : Session) :
  uploaded_file s = None ->
  run s =
  (inl Stopped,
   [set_page_config "Isotherm Shifter" "💧"; title "Isotherm Shifter";
    write purpose; file_uploader "CSV file" ["csv"];
    info "Upload a CSV to get started. Expected columns: Relative Humidity (%) and water loading (g/g)."]).
Proof. intro Hup. apply run_without_upload, Hup. Qed.

(** No upload, whatever the widgets. *)
Lemma no_upload_shows_the_hint_witness :
  run (untouched None) =
  (inl Stopped,
   [set_page_config "Isotherm Shifter" "💧"; title "Isotherm Shifter";
    write purpose; file_uploader "CSV file" ["csv"];
    info "Upload a CSV to get started. Expected columns: Relative Humidity (%) and water loading (g/g)."]).
Proof. apply (no_upload_shows_the_hint (untouched None)). reflexivity. Defined.

(** One column chosen twice: [df_raw[[c, c]]] has two columns labelled [c]
    and [sort_values(c)] refuses the label. *)
Lemma clean_same_column (df_raw : DataFrame cell) (c : string) :
  NoDup (columns df_raw) -> In c (columns df_raw) ->
  clean df_raw c c = inl (LabelNotUnique c).
Proof.
  intros Hnd Hin.
  destruct (positions_from_unique c (columns df_raw) 0 Hnd Hin) as (i & Hpi & Hi).
  simpl in Hpi.
  unfold clean, getitem_list, positions.
  cbn [find]. rewrite Hpi.
  cbn [length Nat.eqb flat_map app columns rows].
  rewrite Hpi. cbn [app].
  rewrite (take_pair i i (columns df_raw) c c Hi Hi).
  unfold sort_values, positions, dropna_numeric, apply_to_numeric, dropna.
  cbn [columns rows positions_from].
  rewrite String.eqb_refl. reflexivity.
Qed.

(** X4. The same column chosen in both select boxes: the script has no
    check for it, and the run ends in the uncaught [ValueError] of
    [sort_values] (the label is not unique), whatever the table holds.  The
    page then ends with the two select boxes: no [st.error] message of the
    script, no slider, chart or download. *)
Theorem same_column_twice_raises (s : Session) (df_raw : DataFrame cell) (c : string) :
  uploaded_file s = Some df_raw ->
  NoDup (columns df_raw) ->
  first_check df_raw = false ->
  In c (columns df_raw) ->
  selectbox_value s "Column containing RH (%)" (columns df_raw) 0%nat = Some c ->
  selectbox_value s "Column containing loading (g water / g salt)"
                  (columns df_raw) 1%nat = Some c ->
  run s = (inl (Raised (LabelNotUnique c)), page_to_selectboxes df_raw) /\
  Forall (fun e => is_error e = false /\ past_the_checks e = false)
         (page_to_selectboxes df_raw).
Proof.
  intros Hup Hnd Hc Hin Hrh Hq. split.
  - apply (run_clean_raises s df_raw c c); try assumption.
    apply clean_same_column; assumption.
  - repeat constructor.
Qed.

(** The three-column upload, with RH chosen twice. *)
Lemma same_column_twice_raises_witness :
  run (first_column_twice three_columns)
  = (inl (Raised (LabelNotUnique "RH")), page_to_selectboxes three_columns) /\
  Forall (fun e => is_error e = false /\ past_the_checks e = false)
         (page_to_selectboxes three_columns).
Proof.
  apply (same_column_twice_raises (first_column_twice three_columns) three_columns "RH").
  - reflexivity.
  - repeat constructor; simpl; intuition discriminate.
  - reflexivity.
  - simpl. tauto.
  - reflexivity.
  - reflexivity.
Defined.

(** X5. The first error message is shown exactly when the uploaded table
    has no row or fewer than two columns: a file with a header of two or
    more columns and no data row is answered with "CSV must contain at
    least two numeric columns", and no other run ends with that message. *)
Theorem first_error_exactly_when (s : Session) (df_raw : DataFrame cell) :
  uploaded_file s = Some df_raw ->
  (exists page,
      run s =
      (inl Stopped,
       (page ++
        [error "CSV must contain at least two numeric columns (RH and loading)."])%list))
  <-> (rows df_raw = [] \/ (length (columns df_raw) < 2)%nat).
Proof.
  intro Hup. rewrite <- first_check_true. split.
  - intros (page & Hrun).
    destruct (first_check df_raw) eqn:Hc; [reflexivity|]. exfalso.
    destruct (selectbox_value s "Column containing RH (%)" (columns df_raw) 0%nat)
      as [rh_col|] eqn:Hrh.
    2:{ pose proof (run_first_selectbox_raises s df_raw Hup Hc Hrh) as H.
        rewrite Hrun in H. discriminate H. }
    destruct (selectbox_value s "Column containing loading (g water / g salt)"
                (columns df_raw) 1%nat) as [q_col|] eqn:Hq.
    2:{ pose proof (run_second_selectbox_raises s df_raw rh_col Hup Hc Hrh Hq) as H.
        rewrite Hrun in H. discriminate H. }
    destruct (clean df_raw rh_col q_col) as [e|iso] eqn:Hclean.
    { rewrite (run_clean_raises s df_raw rh_col q_col e Hup Hc Hrh Hq Hclean) in Hrun.
      discriminate Hrun. }
    destruct (empty iso) eqn:He.
    { rewrite (run_second_check s df_raw rh_col q_col iso Hup Hc Hrh Hq Hclean He) in Hrun.
      apply (f_equal snd) in Hrun. cbn [snd] in Hrun.
      apply app_inj_tail in Hrun.
      destruct Hrun as [_ Hmsg]. discriminate Hmsg. }
    destruct (getitem iso rh_col) as [e|rh_values] eqn:Hg.
    { rewrite (run_getitem_raises s df_raw rh_col q_col iso e
                 Hup Hc Hrh Hq Hclean He Hg) in Hrun.
      discriminate Hrun. }
    rewrite (run_to_slider s df_raw rh_col q_col iso rh_values
               Hup Hc Hrh Hq Hclean He Hg) in Hrun.
    destruct (slider_value s "Starting RH (%)" (series_min rh_values)
                (series_max rh_values) (series_min rh_values) 1) as [start_rh|].
    + match type of Hrun with ?r = _ =>
        assert (H : fst r = inl Stopped) by (rewrite Hrun; reflexivity) end.
      exact (proj1 (compute_and_show_goes_on _ _ _ _ _) H).
    + discriminate Hrun.
  - intro Hc. exists (page_to_raw_table df_raw).
    apply run_first_check; assumption.
Qed.

(** A header of two columns and no row. *)
Lemma first_error_exactly_when_witness :
  (exists page,
      run (untouched (Some header_only)) =
      (inl Stopped,
       (page ++
        [error "CSV must contain at least two numeric columns (RH and loading)."])%list))
  <-> (rows header_only = [] \/ (length (columns header_only) < 2)%nat).
Proof. apply (first_error_exactly_when (untouched (Some header_only)) header_only). reflexivity. Defined.

(** A table that passes the cleaning with a row left passes the first
    check. *)
Lemma cleaned_passes_first_check
  (df_raw : DataFrame cell) (rh_col q_col : string) (i j : nat) :
  In rh_col (columns df_raw) -> In q_col (columns df_raw) -> rh_col <> q_col ->
  cleaned_rows i j (rows df_raw) <> [] ->
  first_check df_raw = false.
Proof.
  intros Hrh Hq Hneq Hrows. apply first_check_false. split.
  - intro E. apply Hrows. rewrite E. reflexivity.
  - exact (two_labels _ _ _ Hrh Hq Hneq).
Qed.

(** What the run is, from the slider on, for an upload that gets there. *)
Lemma run_from_slider
  (s : Session) (df_raw : DataFrame cell) (rh_col q_col : string) (iso : DataFrame Q) :
  uploaded_file s = Some df_raw ->
  rectangular df_raw ->
  selectbox_value s "Column containing RH (%)" (columns df_raw) 0%nat = Some rh_col ->
  selectbox_value s "Column containing loading (g water / g salt)"
                  (columns df_raw) 1%nat = Some q_col ->
  In rh_col (columns df_raw) -> In q_col (columns df_raw) -> rh_col <> q_col ->
  clean df_raw rh_col q_col = inr iso ->
  rows iso <> [] ->
  columns iso = [rh_col; q_col] /\
  Forall (fun row => length row = 2%nat) (rows iso) /\
  getitem iso rh_col = inr (rh_of (series_of iso)) /\
  getitem iso q_col = inr (loading_of (series_of iso)) /\
  run s =
  match slider_value s "Starting RH (%)"
          (series_min (rh_of (series_of iso))) (series_max (rh_of (series_of iso)))
          (series_min (rh_of (series_of iso))) 1 with
  | None =>
      (inl (Raised WidgetException),
       (page_to_selectboxes df_raw ++
        [slider "Starting RH (%)"
           (series_min (rh_of (series_of iso))) (series_max (rh_of (series_of iso)))
           (series_min (rh_of (series_of iso))) 1])%list)
  | Some start_rh =>
      compute_and_show iso rh_col q_col start_rh
        (page_to_selectboxes df_raw ++
         [slider "Starting RH (%)"
            (series_min (rh_of (series_of iso))) (series_max (rh_of (series_of iso)))
            (series_min (rh_of (series_of iso))) 1])%list
  end.
Proof.
  intros Hup Hrect Hrh Hq Hinrh Hinq Hneq Hclean Hrows.
  destruct (clean_spec df_raw rh_col q_col Hrect Hinrh Hinq Hneq)
    as (i & j & Hi & Hj & Hclean').
  assert (Hiso : iso = {| columns := [rh_col; q_col];
                          rows := cleaned_rows i j (rows df_raw) |}) by congruence.
  assert (Hwidth : Forall (fun row => length row = 2%nat) (rows iso)).
  { rewrite Hiso. cbn [rows]. destruct Hrect as [_ Hrect].
    apply (cleaned_rows_width i j (rows df_raw) (length (columns df_raw)));
      [apply nth_error_Some; congruence | apply nth_error_Some; congruence | exact Hrect]. }
  assert (Hc : first_check df_raw = false).
  { apply (cleaned_passes_first_check df_raw rh_col q_col i j); try assumption.
    rewrite Hiso in Hrows. exact Hrows. }
  assert (He : empty iso = false).
  { unfold empty. rewrite Hiso at 1. cbn [columns]. simpl.
    apply Nat.eqb_neq. intro E. apply Hrows. now apply length_zero_iff_nil. }
  assert (Hg : getitem iso rh_col = inr (rh_of (series_of iso)) /\
               getitem iso q_col = inr (loading_of (series_of iso))).
  { unfold rh_of, loading_of, series_of. rewrite !map_map. cbn [fst snd].
    rewrite Hiso. cbn [rows]. apply getitem_pair. exact Hneq. }
  destruct Hg as [Hg1 Hg2].
  split; [rewrite Hiso; reflexivity|]. split; [exact Hwidth|].
  split; [exact Hg1|]. split; [exact Hg2|].
  apply (run_to_slider s df_raw rh_col q_col iso); assumption.
Qed.

(** X6. The slider runs over the RH values of the cleaned table: in every
    run that gets past the two checks the page holds the slider, its
    [min_value] and [max_value] are RH values of the cleaned table and bound
    every RH of it, and its starting [value] is the [min_value]. *)
Theorem slider_spans_the_data
  (s : Session) (df_raw : DataFrame cell) (rh_col q_col : string) (iso : DataFrame Q) :
  uploaded_file s = Some df_raw ->
  rectangular df_raw ->
  selectbox_value s "Column containing RH (%)" (columns df_raw) 0%nat = Some rh_col ->
  selectbox_value s "Column containing loading (g water / g salt)"
                  (columns df_raw) 1%nat = Some q_col ->
  In rh_col (columns df_raw) -> In q_col (columns df_raw) -> rh_col <> q_col ->
  clean df_raw rh_col q_col = inr iso ->
  rows iso <> [] ->
  exists lo hi,
    In (slider "Starting RH (%)" lo hi lo 1) (snd (run s)) /\
    In lo (rh_of (series_of iso)) /\
    In hi (rh_of (series_of iso)) /\
    forall r, In r (rh_of (series_of iso)) -> (lo <= r)%Q /\ (r <= hi)%Q.
Proof.
  intros Hup Hrect Hrh Hq Hinrh Hinq Hneq Hclean Hrows.
  destruct (run_from_slider s df_raw rh_col q_col iso
              Hup Hrect Hrh Hq Hinrh Hinq Hneq Hclean Hrows)
    as (_ & _ & _ & _ & Hrun).
  assert (Hne : rh_of (series_of iso) <> []).
  { unfold rh_of, series_of. destruct (rows iso); [congruence | discriminate]. }
  destruct (series_min_max_spec (rh_of (series_of iso)) Hne) as (Hmin & Hmax & Hb).
  exists (series_min (rh_of (series_of iso))), (series_max (rh_of (series_of iso))).
  split; [|split; [exact Hmin | split; [exact Hmax | exact Hb]]].
  rewrite Hrun.
  destruct (slider_value s "Starting RH (%)" (series_min (rh_of (series_of iso)))
              (series_max (rh_of (series_of iso)))
              (series_min (rh_of (series_of iso))) 1) as [start_rh|].
  - match goal with |- In _ (snd (compute_and_show ?a ?b ?c ?d ?pg)) =>
      destruct (compute_and_show_goes_on a b c d pg) as (_ & more & Hpage & _)
    end.
    rewrite Hpage. apply in_or_app. left. apply in_or_app. right. now left.
  - cbn [snd]. apply in_or_app. right. now left.
Qed.

(** The three-column upload: the slider runs from 0 to 100. *)
Lemma slider_spans_the_data_witness :
  exists lo hi,
    In (slider "Starting RH (%)" lo hi lo 1) (snd (run (untouched (Some three_columns)))) /\
    In lo [0; 40; 100]%Q /\
    In hi [0; 40; 100]%Q /\
    forall r, In r [0; 40; 100]%Q -> (lo <= r)%Q /\ (r <= hi)%Q.
Proof.
  apply (slider_spans_the_data (untouched (Some three_columns)) three_columns "RH" "q"
           {| columns := ["RH"; "q"];
              rows := [[0; 0.05]; [40; 0.18]; [100; 0.80]]%Q |}).
  - reflexivity.
  - split; [|repeat constructor].
    repeat constructor; simpl; intuition discriminate.
  - reflexivity.
  - reflexivity.
  - simpl. tauto.
  - simpl. tauto.
  - discriminate.
  - reflexivity.
  - discriminate.
Defined.

(** Steps 5 to 7 on a cleaned table never raise. *)
Lemma interp_on_cleaned (iso : DataFrame Q) (start_rh : Q) :
  rows iso <> [] ->
  exists b,
    Numpy.interp start_rh (rh_of (series_of iso)) (loading_of (series_of iso)) = inr b.
Proof.
  intro Hrows.
  assert (Hne : series_of iso <> []).
  { unfold series_of. destruct (rows iso); [congruence | discriminate]. }
  destruct (compute_baseline_spec (series_of iso) start_rh Hne) as (b & Hb & _).
  exists b. exact Hb.
Qed.

(** *** A loading column that already has the label of the new column *)

Lemma setitem_second_column {A} (a c : string) (rs : list (list A)) (values : list A) :
  a <> c ->
  setitem {| columns := [a; c]; rows := rs |} c values
  = {| columns := [a; c];
       rows := map (fun rv => replace_at [1%nat] (snd rv) (fst rv) 0)
                   (combine rs values) |}.
Proof.
  intro Ha. unfold setitem, positions. cbn [columns rows positions_from].
  assert (E : String.eqb a c = false) by (apply String.eqb_neq; congruence).
  rewrite E, String.eqb_refl. reflexivity.
Qed.

Lemma overwritten_rows_records (b : Q) (rs : list (list Q)) :
  Forall (fun row => length row = 2%nat) rs ->
  map (map Entry)
      (map (fun rv => replace_at [1%nat] (snd rv) (fst rv) 0)
           (combine (map (map Some) rs)
                    (adjusted_column b (map (fun row => nth 1 row 0%Q) rs))))
  = map (short_record_of b) (map (fun row => (nth 0 row 0%Q, nth 1 row 0%Q)) rs).
Proof.
  intro H. induction H as [|row rs Hrow Hrs IH]; simpl; [reflexivity|].
  f_equal; [|exact IH].
  destruct row as [|r0 [|r1 [|r2 row]]]; try discriminate Hrow.
  reflexivity.
Qed.

(** X8. When the column chosen as loading is itself labelled "Adjusted
    uptake (g/g initial mass)" (a file the script wrote, uploaded again),
    the assignment of line 72 replaces that column instead of adding one:
    the chart and the download hold two columns, the RH and the newly
    adjusted values, and the loading that was chosen is not written. *)
Theorem loading_column_overwritten
  (s : Session) (df_raw : DataFrame cell) (rh_col : string)
  (iso : DataFrame Q) (start_rh : Q) :
  uploaded_file s = Some df_raw ->
  rectangular df_raw ->
  selectbox_value s "Column containing RH (%)" (columns df_raw) 0%nat = Some rh_col ->
  selectbox_value s "Column containing loading (g water / g salt)"
                  (columns df_raw) 1%nat = Some adjusted_label ->
  In rh_col (columns df_raw) -> In adjusted_label (columns df_raw) ->
  rh_col <> adjusted_label ->
  clean df_raw rh_col adjusted_label = inr iso ->
  rows iso <> [] ->
  slider_value s "Starting RH (%)"
               (series_min (rh_of (series_of iso))) (series_max (rh_of (series_of iso)))
               (series_min (rh_of (series_of iso))) 1 = Some start_rh ->
  exists page fig baseline_q,
    compute_baseline (series_of iso) start_rh = inr baseline_q /\
    columns (data_frame fig) = [rh_col; adjusted_label] /\
    run s =
    (inr tt,
     (page ++
      [plotly_chart fig true;
       download_button "Download adjusted isotherm as CSV"
         ([Label rh_col; Label adjusted_label]
          :: map (short_record_of baseline_q) (series_of iso))
         "adjusted_isotherm.csv" "text/csv"])%list).
Proof.
  intros Hup Hrect Hrh Hq Hinrh Hinq Hneq Hclean Hrows Hslider.
  destruct (run_from_slider s df_raw rh_col adjusted_label iso
              Hup Hrect Hrh Hq Hinrh Hinq Hneq Hclean Hrows)
    as (Hcols & Hwidth & Hg1 & Hg2 & Hrun).
  rewrite Hslider in Hrun.
  destruct (interp_on_cleaned iso start_rh Hrows) as (b & Hb).
  destruct (compute_and_show_spec iso rh_col adjusted_label start_rh
              (page_to_selectboxes df_raw ++
               [slider "Starting RH (%)"
                  (series_min (rh_of (series_of iso)))
                  (series_max (rh_of (series_of iso)))
                  (series_min (rh_of (series_of iso))) 1])%list
              _ _ b Hg1 Hg2 Hb)
    as (fig & Hdata & _ & _ & _ & Hshow).
  assert (Hset : setitem (as_float iso) adjusted_label
                         (adjusted_column b (loading_of (series_of iso)))
                 = {| columns := [rh_col; adjusted_label];
                      rows := map (fun rv => replace_at [1%nat] (snd rv) (fst rv) 0)
                                  (combine (map (map Some) (rows iso))
                                     (adjusted_column b (loading_of (series_of iso)))) |}).
  { unfold as_float. rewrite Hcols. apply setitem_second_column. exact Hneq. }
  eexists. exists fig, b. split; [exact Hb|]. split.
  { rewrite Hdata, Hset. reflexivity. }
  rewrite Hrun, Hshow. do 4 f_equal.
  rewrite Hset, to_csv_without_index. cbn [columns rows].
  f_equal.
  assert (Hl : loading_of (series_of iso) = map (fun row => nth 1 row 0%Q) (rows iso)).
  { unfold loading_of, series_of. rewrite map_map. reflexivity. }
  rewrite Hl, (overwritten_rows_records b (rows iso) Hwidth). reflexivity.
Qed.

(** The file written before, with RH and its adjusted column chosen. *)
Lemma loading_column_overwritten_witness :
  exists page fig baseline_q,
    compute_baseline [(0, 0); (40, 13 # 105); (100, 75 # 105)]%Q 0 = inr baseline_q /\
    columns (data_frame fig) = ["RH"; adjusted_label] /\
    run (choosing written_before 0 2) =
    (inr tt,
     (page ++
      [plotly_chart fig true;
       download_button "Download adjusted isotherm as CSV"
         ([Label "RH"; Label adjusted_label]
          :: map (short_record_of baseline_q)
                 [(0, 0); (40, 13 # 105); (100, 75 # 105)]%Q)
         "adjusted_isotherm.csv" "text/csv"])%list).
Proof.
  apply (loading_column_overwritten (choosing written_before 0 2) written_before "RH"
           {| columns := ["RH"; adjusted_label];
              rows := [[0; 0]; [40; 13 # 105]; [100; 75 # 105]]%Q |} 0%Q).
  - reflexivity.
  - split; [|repeat constructor].
    repeat constructor; simpl; intuition discriminate.
  - reflexivity.
  - reflexivity.
  - simpl. tauto.
  - simpl. tauto.
  - discriminate.
  - reflexivity.
  - discriminate.
  - reflexivity.
Defined.

(** X15. The second error message is shown exactly when the upload has
    rows but none with a number in both chosen columns: then, and only then,
    the run ends in [st.stop()] right after "Selected columns could not be
    converted to numeric values." *)
Theorem second_error_exactly_when
  (s : Session) (df_raw : DataFrame cell) (rh_col q_col : string) (i j : nat) :
  uploaded_file s = Some df_raw ->
  rectangular df_raw ->
  selectbox_value s "Column containing RH (%)" (columns df_raw) 0%nat = Some rh_col ->
  selectbox_value s "Column containing loading (g water / g salt)"
                  (columns df_raw) 1%nat = Some q_col ->
  nth_error (columns df_raw) i = Some rh_col ->
  nth_error (columns df_raw) j = Some q_col ->
  rh_col <> q_col ->
  (exists page,
      run s =
      (inl Stopped,
       (page ++
        [error "Selected columns could not be converted to numeric values."])%list))
  <-> (rows df_raw <> [] /\ kept_rows i j (rows df_raw) = []).
Proof.
  intros Hup Hrect Hrh Hq Hi Hj Hneq.
  pose proof (nth_error_In _ _ Hi) as Hinrh.
  pose proof (nth_error_In _ _ Hj) as Hinq.
  destruct (clean_at df_raw rh_col q_col i j Hrect Hi Hj Hneq) as [Hclean Hperm].
  set (iso := {| columns := [rh_col; q_col];
                 rows := cleaned_rows i j (rows df_raw) |}) in *.
  split.
  - intros (page & Hrun).
    destruct (first_check df_raw) eqn:Hc.
    { rewrite (run_first_check s df_raw Hup Hc) in Hrun.
      apply (f_equal snd) in Hrun. cbn [snd] in Hrun.
      apply app_inj_tail in Hrun. destruct Hrun as [_ Hmsg]. discriminate Hmsg. }
    apply first_check_false in Hc. split; [apply Hc|].
    destruct (kept_rows i j (rows df_raw)) as [|row rs] eqn:Hkept; [reflexivity|].
    exfalso.
    assert (Hne : rows iso <> []).
    { intro E. cbn [iso rows] in E. rewrite E in Hperm.
      apply Permutation_nil in Hperm. discriminate Hperm. }
    destruct (run_from_slider s df_raw rh_col q_col iso
                Hup Hrect Hrh Hq Hinrh Hinq Hneq Hclean Hne)
      as (_ & _ & _ & _ & Hrun').
    rewrite Hrun' in Hrun.
    destruct (slider_value s "Starting RH (%)"
                (series_min (rh_of (series_of iso))) (series_max (rh_of (series_of iso)))
                (series_min (rh_of (series_of iso))) 1) as [start_rh|].
    + match type of Hrun with ?r = _ =>
        assert (H : fst r = inl Stopped) by (rewrite Hrun; reflexivity) end.
      exact (proj1 (compute_and_show_goes_on _ _ _ _ _) H).
    + discriminate Hrun.
  - intros [Hrows Hkept].
    assert (Hc : first_check df_raw = false).
    { apply first_check_false. split; [exact Hrows|].
      exact (two_labels _ _ _ Hinrh Hinq Hneq). }
    exists (page_to_selectboxes df_raw).
    apply (run_second_check s df_raw rh_col q_col iso Hup Hc Hrh Hq Hclean).
    unfold empty. cbn [iso rows columns].
    rewrite Hkept in Hperm. apply Permutation_sym, Permutation_nil in Hperm.
    rewrite Hperm. reflexivity.
Qed.

(** Two text columns: rows, but nothing converts. *)
Lemma second_error_exactly_when_witness :
  (exists page,
      run (untouched (Some no_numbers)) =
      (inl Stopped,
       (page ++
        [error "Selected columns could not be converted to numeric values."])%list))
  <-> (rows no_numbers <> [] /\ kept_rows 0 1 (rows no_numbers) = []).
Proof.
  apply (second_error_exactly_when (untouched (Some no_numbers)) no_numbers "RH" "q" 0 1).
  - reflexivity.
  - split; [|repeat constructor].
    repeat constructor; simpl; intuition discriminate.
  - reflexivity.
  - reflexivity.
  - reflexivity.
  - reflexivity.
  - discriminate.
Defined.

(** *** The chart and the download *)

Lemma positions_present (label : string) (cols : list string) :
  positions_from label cols 0 <> [] -> In label cols.
Proof.
  intro H. destruct (in_dec string_dec label cols) as [Hin | Hout]; [exact Hin|].
  exfalso. apply H, positions_from_absent, Hout.
Qed.

(** After [df[label] = values] the table has a column [label], and every
    column it had. *)
Lemma setitem_columns {A} (df : DataFrame A) (label : string) (values : list A) :
  In label (columns (setitem df label values)) /\
  forall c, In c (columns df) -> In c (columns (setitem df label values)).
Proof.
  unfold setitem, positions.
  destruct (positions_from label (columns df) 0) as [|p ps] eqn:E; cbn [columns].
  - split; [apply in_or_app; right; now left|].
    intros c Hc. apply in_or_app. now left.
  - split; [|tauto]. apply positions_present. rewrite E. discriminate.
Qed.

Lemma getitem_present (df : DataFrame Q) (label : string) (values : list Q) :
  getitem df label = inr values -> In label (columns df).
Proof.
  unfold getitem, positions. intro H. apply positions_present.
  destruct (positions_from label (columns df) 0); [discriminate H | discriminate].
Qed.

(** X14. The chart and the download show one table.  Whatever the upload
    and the widgets, a run that reaches its last line has put the chart and
    the download button last on the page; the file offered is the table of
    the chart written without index, the chart's x column and y column are
    both columns of that table, the y column is the new one, and no error
    message is on the page. *)
Theorem chart_and_download_agree (s : Session) (page : list element) :
  run s = (inr tt, page) ->
  exists before fig,
    page =
    (before ++
     [plotly_chart fig true;
      download_button "Download adjusted isotherm as CSV"
                      (to_csv false (data_frame fig))
                      "adjusted_isotherm.csv" "text/csv"])%list /\
    y fig = adjusted_label /\
    In (x fig) (columns (data_frame fig)) /\
    In (y fig) (columns (data_frame fig)) /\
    Forall (fun e => is_error e = false) page.
Proof.
  unfold run, main. cbv [bind show stop ret widget lift raise].
  destruct (uploaded_file s) as [df_raw|]; [|discriminate].
  destruct (empty df_raw || (length (columns df_raw) <? 2)%nat); [discriminate|].
  destruct (selectbox_value s "Column containing RH (%)" (columns df_raw) 0%nat)
    as [rh_col|]; [|discriminate].
  destruct (selectbox_value s "Column containing loading (g water / g salt)"
              (columns df_raw) 1%nat) as [q_col|]; [|discriminate].
  destruct (clean df_raw rh_col q_col) as [e|iso]; [discriminate|].
  destruct (empty iso); [discriminate|].
  destruct (getitem iso rh_col) as [e|rh_values] eqn:Hrh; [discriminate|].
  destruct (slider_value s "Starting RH (%)" (series_min rh_values)
              (series_max rh_values) (series_min rh_values) 1)
    as [start_rh|]; [|discriminate].
  unfold compute_and_show. cbv [bind show stop ret widget lift raise].
  rewrite Hrh.
  destruct (getitem iso q_col) as [e|q_values]; [discriminate|].
  destruct (Numpy.interp start_rh rh_values q_values) as [e|baseline_q];
    [discriminate|].
  intro H. injection H as <-.
  refine (ex_intro _ [_; _; _; _; _; _; _; _; _] _).
  refine (ex_intro _ {| data_frame := _; x := _; y := _; title_start_rh := _;
                        labels := _; margin := _ |} _).
  split; [reflexivity|]. cbn [y x data_frame].
  split; [reflexivity|]. split; [|split].
  - apply (proj2 (setitem_columns (as_float iso) adjusted_label _)).
    cbn [as_float columns]. apply (getitem_present iso rh_col rh_values Hrh).
  - apply (proj1 (setitem_columns (as_float iso) adjusted_label _)).
  - repeat constructor.
Qed.

(** The three-column upload with nothing touched. *)
Lemma chart_and_download_agree_witness :
  exists before fig,
    snd (run (untouched (Some three_columns))) =
    (before ++
     [plotly_chart fig true;
      download_button "Download adjusted isotherm as CSV"
                      (to_csv false (data_frame fig))
                      "adjusted_isotherm.csv" "text/csv"])%list /\
    y fig = adjusted_label /\
    In (x fig) (columns (data_frame fig)) /\
    In (y fig) (columns (data_frame fig)) /\
    Forall (fun e => is_error e = false) (snd (run (untouched (Some three_columns)))).
Proof.
  apply (chart_and_download_agree (untouched (Some three_columns))).
  reflexivity.
Defined.

End RunOutcomes.

(** ** The adjusted curve (steps 4 and 5) *)

Section TheCurve.
Import Pandas.

Lemma fold_min_head (rest : list Q) (x : Q) :
  (forall y, In y rest -> x <= y) -> fold_left Qmin rest x = x.
Proof.
  induction rest as [|a rest IH]; intro H; cbn [fold_left]; [reflexivity|].
  assert (Ha : Qmin x a = x).
  { unfold Qmin, GenericMinMax.gmin. destruct (x ?= a) eqn:E; try reflexivity.
    apply Qgt_alt in E. exfalso.
    apply (Qlt_not_le _ _ E). apply H. now left. }
  rewrite Ha. apply IH. intros y Hy. apply H. now right.
Qed.

(** In an ascending column the minimum is the first value. *)
Lemma series_min_ascending (x : Q) (rest : list Q) :
  ascending (x :: rest) -> series_min (x :: rest) = x.
Proof.
  intro Ha. unfold series_min. apply fold_min_head.
  intros y Hy. destruct (In_nth rest y 0 Hy) as (k & Hk & <-).
  apply ascending_head_le; assumption.
Qed.

(** X9. The curve starts at zero.  With the slider where the script puts
    it, at the smallest RH of the cleaned table, the first point of the
    adjusted series has the adjusted uptake 0, provided no other point has
    that smallest RH and the first loading is not [-1]. *)
Theorem curve_starts_at_zero (p : Q * Q) (rest : IsothermSeries) :
  ascending (rh_of (p :: rest)) ->
  (forall p', In p' rest -> ~ fst p' == fst p) ->
  ~ snd p == -1 ->
  series_min (rh_of (p :: rest)) = fst p /\
  exists a col,
    compute_adjusted_series (p :: rest) (series_min (rh_of (p :: rest)))
    = inr ((fst p, Some a) :: col) /\
    a == 0.
Proof.
  intros Hasc Hfirst Hq.
  assert (Hmin : series_min (rh_of (p :: rest)) = fst p)
    by (apply (series_min_ascending (fst p) (rh_of rest)); exact Hasc).
  split; [exact Hmin|]. rewrite Hmin.
  assert (Hnz : ~ 1 + snd p == 0) by (intro E; apply Hq; lra).
  assert (Hb : compute_baseline (p :: rest) (fst p) = inr (snd p)).
  { apply (compute_baseline_at_point (p :: rest) (fst p) 0 (fst p) (snd p)).
    - exact Hasc.
    - destruct p; reflexivity.
    - reflexivity.
    - intros [|m] p' Hm Hp'; [lia|]. apply Hfirst.
      simpl in Hp'. eapply nth_error_In. exact Hp'. }
  destruct (adjusted_uptake_at_baseline (snd p) Hnz) as (a & Ha & Ha0).
  exists a. eexists. split; [|exact Ha0].
  unfold compute_adjusted_series. rewrite Hb.
  cbn [rh_of loading_of map adjusted_column combine]. rewrite Ha. reflexivity.
Qed.

(** The six-point example with the slider untouched. *)
Lemma curve_starts_at_zero_witness :
  series_min (rh_of example_series_6) = 0 /\
  exists a col,
    compute_adjusted_series example_series_6 (series_min (rh_of example_series_6))
    = inr ((0, Some a) :: col) /\
    a == 0.
Proof.
  apply (curve_starts_at_zero (0, 0.05)
           [(20, 0.10); (40, 0.18); (60, 0.30); (80, 0.50); (100, 0.80)]).
  - simpl. repeat split; discriminate.
  - simpl. intros p' [<- | [<- | [<- | [<- | [<- | []]]]]] E; discriminate E.
  - intro E. discriminate E.
Defined.

End TheCurve.
